(** * pangea-gpt: the redaction and annotation pipeline of [pangea-gpt.py]

    A shallow embedding of [src/pangea-gpt.py].  Python strings are lists
    of characters, character offsets are integers with Python's slicing
    rules, the three remote services are parameters of the development and
    every outbound call is recorded in a trace. *)

From Stdlib Require Import ZArith Lia Ascii String DecimalString.
From stdpp Require Import base list strings gmap.

Local Open Scope Z_scope.

(** ** Python strings and slices *)

Module Py.

(** A Python [str]: a sequence of characters. *)
Definition text := list ascii.

(** A string literal as a [text]. *)
Definition str (s : string) : text := list_ascii_of_string s.

Arguments str : simpl never.

(** [len(t)] as an integer. *)
Definition len (t : text) : Z := Z.of_nat (length t).

(** The position a slice bound [i] denotes in a sequence of [n] items:
    a negative bound counts from the end, and the result is clamped to
    [0..n]. *)
Definition bound (n : nat) (i : Z) : nat :=
  Z.to_nat (if i <? 0 then Z.max 0 (i + Z.of_nat n) else Z.min i (Z.of_nat n)).

(** [t[:stop]] *)
Definition slice_to (t : text) (stop : Z) : text :=
  take (bound (length t) stop) t.

(** [t[start:]] *)
Definition slice_from (t : text) (start : Z) : text :=
  drop (bound (length t) start) t.

(** [t[start:stop]] *)
Definition slice (t : text) (start stop : Z) : text :=
  let lo := bound (length t) start in
  let hi := bound (length t) stop in
  take (hi - lo)%nat (drop lo t).

(** [t.startswith(p)] *)
Fixpoint startswith (t p : text) {struct p} : bool :=
  match p, t with
  | [], _ => true
  | _ :: _, [] => false
  | c :: p', d :: t' => if decide (c = d) then startswith t' p' else false
  end.

(** [a == b] on strings. *)
Definition str_eq (a b : text) : bool := bool_decide (a = b).

(** The characters [str.strip()] removes, for code points below 256:
    tab to carriage return, the four separators 28-31, space, NEL and
    the no-break space. *)
Definition isspace (c : ascii) : bool :=
  let n := nat_of_ascii c in
  ((9 <=? n) && (n <=? 13) || (28 <=? n) && (n <=? 32)
   || (n =? 133) || (n =? 160))%nat.

(** [not t.strip()]: the text is empty or whitespace only. *)
Definition blank (t : text) : bool := forallb isspace t.

End Py.

Import Py.

(** ** The offset splicer *)

(** [replace_word] (lines 199-202). *)
Definition replace_word (text_ replacement : text) (start end_ : Z) : text :=
  let init := slice_to text_ start in
  let tail := slice_from text_ end_ in
  init ++ replacement ++ tail.


(** ** Exceptions and results *)

Inductive exn :=
| AssertionError
| KeyError (key : text)
| TypeError
| AttributeError
| ValueError (msg : text)
| AdapterError (service : text).

Inductive res (A : Type) :=
| Ok (a : A)
| Raise (e : exn).

Arguments Ok {A} a.
Arguments Raise {A} e.

(** ** JSON documents and [json.dumps] *)

Module Json.

#[local] Set Warnings "-register-all".

Inductive json :=
| JNull
| JBool (b : bool)
| JInt (z : Z)
| JString (s : text)
| JArray (items : list json)
| JObject (members : list (text * json)).

Definition quote : ascii := ascii_of_nat 34.
Definition backslash : ascii := ascii_of_nat 92.
Definition newline : ascii := ascii_of_nat 10.
Definition space : ascii := ascii_of_nat 32.

Definition hex_digit (n : nat) : ascii :=
  nth (n mod 16) (str "0123456789abcdef") space.

(** One character of a string literal with [ensure_ascii] on: the quote
    and the backslash are escaped, the five short escapes are used, and
    every other character outside space..tilde becomes [\u00XX]. *)
Definition escape_char (c : ascii) : text :=
  let n := nat_of_ascii c in
  if (n =? 34)%nat then [backslash; quote]
  else if (n =? 92)%nat then [backslash; backslash]
  else if (n =? 10)%nat then backslash :: str "n"
  else if (n =? 13)%nat then backslash :: str "r"
  else if (n =? 9)%nat then backslash :: str "t"
  else if (n =? 8)%nat then backslash :: str "b"
  else if (n =? 12)%nat then backslash :: str "f"
  else if ((n <? 32) || (126 <? n))%nat
       then backslash :: str "u00" ++ [hex_digit (n / 16); hex_digit n]
  else [c].

Definition encode_string (s : text) : text :=
  quote :: concat (map escape_char s) ++ [quote].

Definition encode_int (z : Z) : text := str (NilZero.string_of_int (Z.to_int z)).

(** [json.dumps(j, indent=indent)] at nesting depth [level].  Without an
    indent the items are separated by a comma and a space; with one, by a
    comma and a line break followed by the indentation. *)
Fixpoint dumps_at (indent : option nat) (level : nat) (j : json) : text :=
  let nl (lvl : nat) : text :=
    match indent with
    | None => []
    | Some n => newline :: repeat space (n * lvl)
    end in
  let sep : text :=
    match indent with
    | None => str ", "
    | Some _ => str ","
    end in
  match j with
  | JNull => str "null"
  | JBool true => str "true"
  | JBool false => str "false"
  | JInt z => encode_int z
  | JString s => encode_string s
  | JArray [] => str "[]"
  | JArray (x :: xs) =>
      str "[" ++ nl (S level) ++ dumps_at indent (S level) x
      ++ (fix rest (l : list json) : text :=
            match l with
            | [] => []
            | y :: ys => sep ++ nl (S level) ++ dumps_at indent (S level) y ++ rest ys
            end) xs
      ++ nl level ++ str "]"
  | JObject [] => str "{}"
  | JObject ((k, v) :: kvs) =>
      str "{" ++ nl (S level) ++ encode_string k ++ str ": " ++ dumps_at indent (S level) v
      ++ (fix rest (l : list (text * json)) : text :=
            match l with
            | [] => []
            | (k', v') :: l' =>
                sep ++ nl (S level) ++ encode_string k' ++ str ": "
                ++ dumps_at indent (S level) v' ++ rest l'
            end) kvs
      ++ nl level ++ str "}"
  end.

Definition dumps (indent : option nat) (j : json) : text := dumps_at indent 0 j.

(** Dictionary members: lookup, removal and in-place update by key. *)
Fixpoint lookup_key (k : text) (kvs : list (text * json)) : option json :=
  match kvs with
  | [] => None
  | (k', v) :: kvs' => if str_eq k k' then Some v else lookup_key k kvs'
  end.

Fixpoint remove_key (k : text) (kvs : list (text * json)) : list (text * json) :=
  match kvs with
  | [] => []
  | (k', v) :: kvs' => if str_eq k k' then kvs' else (k', v) :: remove_key k kvs'
  end.

Fixpoint update_key (k : text) (v : json) (kvs : list (text * json)) : list (text * json) :=
  match kvs with
  | [] => []
  | (k', v') :: kvs' =>
      if str_eq k k' then (k', v) :: kvs' else (k', v') :: update_key k v kvs'
  end.

(** [d.pop(k)] for its effect on [d]: the dictionary without the key.
    A missing key raises [KeyError]; a list rejects a string index and
    the other values have no [pop]. *)
Definition pop (k : text) (d : json) : res json :=
  match d with
  | JObject kvs =>
      match lookup_key k kvs with
      | Some _ => Ok (JObject (remove_key k kvs))
      | None => Raise (KeyError k)
      end
  | JArray _ => Raise TypeError
  | _ => Raise AttributeError
  end.

(** [d[k]] with a string key. *)
Definition getitem (k : text) (d : json) : res json :=
  match d with
  | JObject kvs =>
      match lookup_key k kvs with
      | Some v => Ok v
      | None => Raise (KeyError k)
      end
  | _ => Raise TypeError
  end.

(** The dictionary [d] once the value under [k], which it shares with
    its holder, has been mutated into [v]. *)
Definition with_member (k : text) (v : json) (d : json) : json :=
  match d with
  | JObject kvs => JObject (update_key k v kvs)
  | _ => d
  end.

End Json.

Import Json.

(** ** Data model *)

(** [ChatMessage] (lines 20-22). *)
Record ChatMessage := { role : text; content : text }.

(** [Messages]: the conversation, pairs of a message and its annotated
    text (line 24). *)
Definition Messages := list (ChatMessage * text).

(** One entry of the detection report; [score] and [text] are not read
    by the program. *)
Record RecognizerResult := {
  field_type : text;
  start : Z;
  end_ : Z;
  redacted : bool
}.

Record DebugReport := { recognizer_results : list RecognizerResult }.

Record RedactResult := {
  redacted_text : text;
  report : option DebugReport
}.

(** The answer of the redaction service: the body [raw_response.json()]
    parses to, and the parsed [result] ([None] when the service gave none). *)
Record RedactResponse := {
  raw_response : json;
  result : option RedactResult
}.

(** ** Outbound calls and the monad that records them *)

Inductive event :=
| CompletionCall (messages : list ChatMessage) (model : text)
| RedactCall (txt : text) (rules : list text) (debug : bool)
| ReputationCall (domain : text) (provider : text).

(** A computation that may raise and that appends the calls it makes to
    the trace. *)
Definition M (A : Type) : Type := list event -> res A * list event.

Definition ret {A} (a : A) : M A := fun tr => (Ok a, tr).

Definition bind {A B} (m : M A) (f : A -> M B) : M B :=
  fun tr =>
    match m tr with
    | (Ok a, tr') => f a tr'
    | (Raise e, tr') => (Raise e, tr')
    end.

Definition lift {A} (r : res A) : M A := fun tr => (r, tr).

Definition call {A} (ev : event) (answer : res A) : M A :=
  fun tr => (answer, tr ++ [ev]).

Notation "'let*' x ':=' m 'in' k" := (bind m (fun x => k))
  (at level 10, x name, m at level 100, k at level 200).

(** [assert o] followed by the use of [o]. *)
Definition assert_some {A} (o : option A) : M A :=
  match o with
  | Some a => ret a
  | None => lift (Raise AssertionError)
  end.

(** [o.attr] on an optional object. *)
Definition attr_of {A} (o : option A) : M A :=
  match o with
  | Some a => ret a
  | None => lift (Raise AttributeError)
  end.

(** The collaborators outside the file: the three remote services, each
    taken as a function of its arguments that may fail, and the JSON
    codec applied to a conversation.
    [chat_completion] stands for [ChatCompletion.create] followed by
    [result["choices"][0]["message"]], [reputation] for the lookup
    followed by [.result.data.verdict]. *)
Record Env := {
  chat_completion : list ChatMessage -> text -> res ChatMessage;
  redact : text -> list text -> bool -> res RedactResponse;
  reputation : text -> text -> res text;
  json_dump : Messages -> text;
  json_load : text -> res Messages
}.

(** The parsed command line. *)
Record Args := {
  previous_conversation : option string;
  new_conversation : bool;
  gpt_redact_rules : list text;
  user_input_redact_rules : list text
}.

Definition default_file : string := "/tmp/pangea_gpt_previous.json".

(** ** The annotation pipeline *)

Section pipeline.
Variable env : Env.

Definition openai_create (messages : list ChatMessage) (model : text) : M ChatMessage :=
  call (CompletionCall messages model) (chat_completion env messages model).

Definition redact_api (txt : text) (rules : list text) (debug : bool) : M RedactResponse :=
  call (RedactCall txt rules debug) (redact env txt rules debug).

Definition domain_intel_api (domain provider : text) : M text :=
  call (ReputationCall domain provider) (reputation env domain provider).

(** Lines 184-188: the span's text without a leading scheme. *)
Definition url_of (content : text) (r : RecognizerResult) : text :=
  let url := slice content (start r) (end_ r) in
  if startswith url (str "http://") then slice_from url 7
  else if startswith url (str "https://") then slice_from url 8
  else url.

(** The body of the loop of lines 181-194, for one entry. *)
Definition annotate_step (content : text) (r : RecognizerResult) (redacted_text : text)
  : M text :=
  if redacted r then
    if str_eq (field_type r) (str "URL") then
      let url := url_of content r in
      let* verdict := domain_intel_api url (str "crowdstrike") in
      if str_eq verdict (str "malicious") then
        let init := slice_to redacted_text (start r) in
        let tail := slice_from redacted_text (end_ r) in
        ret (init ++ str "<MALICIOUS_URL>" ++ tail)
      else ret redacted_text
    else
      ret (replace_word redacted_text (str "<" ++ field_type r ++ str ">")
             (start r) (end_ r))
  else ret redacted_text.

(** The loop of lines 181-194. *)
Fixpoint annotate (content : text) (rs : list RecognizerResult) (redacted_text : text)
  : M text :=
  match rs with
  | [] => ret redacted_text
  | r :: rs' =>
      let* redacted_text' := annotate_step content r redacted_text in
      annotate content rs' redacted_text'
  end.

(** Lines 170-172: the response body with its [summary] popped and the
    [redacted_text] popped from its [result]. *)
Definition audit_payload (payload : json) : res json :=
  match pop (str "summary") payload with
  | Raise e => Raise e
  | Ok payload1 =>
      match getitem (str "result") payload1 with
      | Raise e => Raise e
      | Ok inner =>
          match pop (str "redacted_text") inner with
          | Raise e => Raise e
          | Ok inner' => Ok (with_member (str "result") inner' payload1)
          end
      end
  end.

(** [send_chatgpt_message] (lines 165-196). *)
Definition send_chatgpt_message (message : text) (previous_messages : Messages)
    (redact_rules : list text) : M (ChatMessage * text * text) :=
  let* chat_message :=
    openai_create
      (map fst previous_messages ++ [{| role := str "user"; content := message |}])
      (str "gpt-3.5-turbo") in
  let content := content chat_message in
  let* redact_response := redact_api content redact_rules true in
  let* payload := lift (audit_payload (raw_response redact_response)) in
  let raw_redact_response := dumps (Some 2%nat) payload in
  let* redacted_result := assert_some (result redact_response) in
  let* report := assert_some (report redacted_result) in
  let* redacted_text := annotate content (recognizer_results report) content in
  ret ({| content := content; role := str "assistant" |}, redacted_text,
       raw_redact_response).

(** ** The HTTP front end *)

(** The body returned by [POST /chat]. *)
Record ChatReply := {
  reply_previous : Messages;
  chat_gpt_message : ChatMessage;
  chat_gpt_redacted : text;
  user_redacted : text;
  raw_redact_user_text : text;
  raw_redact_gpt_text : text
}.

(** [chat] (lines 54-72), from the two fields of the request body. *)
Definition chat (args : Args) (previous : Messages) (user_message : text) : M ChatReply :=
  let* user_call := redact_api user_message (user_input_redact_rules args) true in
  let raw_redact_user_text := dumps (Some 2%nat) (raw_response user_call) in
  let* user_result := attr_of (result user_call) in
  let user_redacted := redacted_text user_result in
  let* reply := send_chatgpt_message user_redacted previous (gpt_redact_rules args) in
  let gpt_message := reply.1.1 in
  let redacted := reply.1.2 in
  let raw_redact_gpt_text := reply.2 in
  let previous := previous ++ [({| role := str "user"; content := user_redacted |},
                                user_redacted)] in
  let previous := previous ++ [(gpt_message, redacted)] in
  ret {| reply_previous := previous;
         chat_gpt_message := gpt_message;
         chat_gpt_redacted := redacted;
         user_redacted := user_redacted;
         raw_redact_user_text := raw_redact_user_text;
         raw_redact_gpt_text := raw_redact_gpt_text |}.

(** ** The conversation store *)

(** [get_previous_text] (lines 151-162) over a file system that maps a
    path to the contents of the file there. *)
Definition get_previous_text (args : Args) (files : gmap string text)
    (file : option string) : res Messages :=
  match file with
  | Some f =>
      match files !! f with
      | None =>
          Raise (ValueError
                   (str "File "
                    ++ match previous_conversation args with
                       | Some p => str p
                       | None => str "None"
                       end
                    ++ str " does not exist"))
      | Some data => json_load env data
      end
  | None =>
      match files !! default_file with
      | Some data => json_load env data
      | None => Ok []
      end
  end.

(** ** The terminal session *)

(** Where the main thread of [run_chat] stands inside the loop of lines
    110-124, with the locals that are live there. *)
Inductive point :=
| AtInput
| Classified (classified : text)
| Answered (classified : text) (gpt_message : ChatMessage) (redacted : text)
| Flagged (classified : text) (gpt_message : ChatMessage) (redacted : text)
| UserStored (gpt_message : ChatMessage) (redacted : text).

Inductive status :=
| Running (at_ : point)
| Exited (code : Z)
| Crashed (e : exn).

(** The process: the two variables the signal handler shares with the
    loop, the lines waiting on standard input, the file system, every
    write made to it, and the calls made. *)
Record session := {
  state : status;
  edited : bool;
  previous : Messages;
  stdin : list text;
  files : gmap string text;
  writes : list (string * text);
  trace : list event
}.

(** What happens next: the main thread runs its next statement, or
    SIGINT/SIGTERM is delivered and the handler runs. *)
Inductive action :=
| Step
| Signal.

(** Lines 92-97: the session at the top of the loop, or the failed load. *)
Definition run_chat_start (args : Args) (fs : gmap string text) (lines : list text)
  : session :=
  let loaded :=
    if new_conversation args then Ok []
    else get_previous_text args fs (previous_conversation args) in
  match loaded with
  | Ok previous =>
      {| state := Running AtInput; edited := false; previous := previous;
         stdin := lines; files := fs; writes := []; trace := [] |}
  | Raise e =>
      {| state := Crashed e; edited := false; previous := [];
         stdin := lines; files := fs; writes := []; trace := [] |}
  end.

(** [term_handler] (lines 98-104). *)
Definition term_handler (args : Args) (s : session) : session :=
  let s' :=
    if edited s then
      let path :=
        match previous_conversation args with
        | Some p => p
        | None => default_file
        end in
      let data := json_dump env (previous s) in
      {| state := state s; edited := edited s; previous := previous s;
         stdin := stdin s;
         files := <[path := data]> (files s);
         writes := writes s ++ [(path, data)];
         trace := trace s |}
    else s in
  {| state := Exited 0; edited := edited s'; previous := previous s';
     stdin := stdin s';
     files := files s'; writes := writes s'; trace := trace s' |}.

(** The outcome of a call made by the main thread: the next point, or
    the exception that ends the process. *)
Definition after {A} (s : session) (m : M A) (next : A -> point) : session :=
  match m (trace s) with
  | (Ok a, tr) =>
      {| state := Running (next a); edited := edited s; previous := previous s;
         stdin := stdin s;
         files := files s; writes := writes s; trace := tr |}
  | (Raise e, tr) =>
      {| state := Crashed e; edited := edited s; previous := previous s;
         stdin := stdin s;
         files := files s; writes := writes s; trace := tr |}
  end.

(** Lines 111-117: the next line of standard input is read; a blank
    line is asked for again, any other line is classified.  With no line
    waiting the thread stays blocked in [input]. *)
Definition read_line (args : Args) (s : session) : session :=
  match stdin s with
  | [] => s
  | line :: rest =>
      let s' :=
        {| state := state s; edited := edited s; previous := previous s;
           stdin := rest;
           files := files s; writes := writes s; trace := trace s |} in
      if blank line then s'
      else
        after s'
          (let* response := redact_api line (user_input_redact_rules args) false in
           let* r := attr_of (result response) in
           ret (redacted_text r))
          Classified
  end.

(** One statement of the loop of lines 110-124. *)
Definition main_step (args : Args) (p : point) (s : session) : session :=
  match p with
  | AtInput => read_line args s
  | Classified classified =>
      after s (send_chatgpt_message classified (previous s) (gpt_redact_rules args))
        (fun reply => Answered classified reply.1.1 reply.1.2)
  | Answered classified gpt_message redacted =>
      {| state := Running (Flagged classified gpt_message redacted);
         edited := true; previous := previous s;
         stdin := stdin s;
         files := files s; writes := writes s; trace := trace s |}
  | Flagged classified gpt_message redacted =>
      {| state := Running (UserStored gpt_message redacted);
         edited := edited s;
         previous := previous s
                     ++ [({| role := str "user"; content := classified |}, classified)];
         stdin := stdin s;
         files := files s; writes := writes s; trace := trace s |}
  | UserStored gpt_message redacted =>
      {| state := Running AtInput;
         edited := edited s;
         previous := previous s ++ [(gpt_message, redacted)];
         stdin := stdin s;
         files := files s; writes := writes s; trace := trace s |}
  end.

Definition step (args : Args) (s : session) (a : action) : session :=
  match state s with
  | Running p =>
      match a with
      | Signal => term_handler args s
      | Step => main_step args p s
      end
  | _ => s
  end.

(** [run_chat] (lines 91-124) with the given lines on standard input,
    under a schedule of statements and signals.  What the loop prints is
    not part of the session. *)
Definition run_chat (args : Args) (fs : gmap string text) (lines : list text)
    (schedule : list action) : session :=
  fold_left (step args) schedule (run_chat_start args fs lines).

End pipeline.

(** ** A sample deployment

    Stand-ins for the collaborators, used to run the program on concrete
    inputs: a completion service with a fixed answer, a redaction service
    that masks digits and reports the given spans when asked for the
    report, and a reputation service with a fixed verdict. *)

Module Sample.

Definition mask_digits (t : text) : text :=
  map (fun c => let n := nat_of_ascii c in
                if ((48 <=? n) && (n <=? 57))%nat then ascii_of_nat 42 else c) t.

Definition body (redacted : text) : json :=
  JObject [ (str "request_id", JString (str "prq_1"));
            (str "summary", JString (str "Success. Redacted 1 item(s) from text"));
            (str "status", JString (str "Success"));
            (str "result", JObject [ (str "redacted_text", JString redacted);
                                     (str "count", JInt 1) ]) ].

Definition message_json (m : ChatMessage) : json :=
  JObject [ (str "role", JString (role m)); (str "content", JString (content m)) ].

Definition env (answer : text) (spans : list RecognizerResult) (verdict : text) : Env :=
  {| chat_completion := fun _ _ => Ok {| role := str "assistant"; content := answer |};
     redact := fun txt _ debug =>
       Ok {| raw_response := body (mask_digits txt);
             result := Some {| redacted_text := mask_digits txt;
                               report := if debug
                                         then Some {| recognizer_results := spans |}
                                         else None |} |};
     reputation := fun _ _ => Ok verdict;
     json_dump := fun msgs =>
       dumps None (JArray (map (fun e => JArray [message_json e.1; JString e.2]) msgs));
     json_load := fun data =>
       if str_eq data (str "[]") then Ok [] else Raise (ValueError (str "not a conversation")) |}.

(** The command line [chat] with every option at its default. *)
Definition args : Args :=
  {| previous_conversation := None;
     new_conversation := false;
     gpt_redact_rules := [];
     user_input_redact_rules :=
       [str "US_SSN"; str "IP_ADDRESS"; str "EMAIL_ADDRESS"; str "PHONE_NUMBER"] |}.

Definition span (tag : text) (s e : Z) (flag : bool) : RecognizerResult :=
  {| field_type := tag; start := s; end_ := e; redacted := flag |}.

End Sample.

(** ** Vocabulary of the statements *)

(** The entries for which the loop asks the reputation service: those
    flagged as redacted whose tag is [URL]. *)
Definition consulted (r : RecognizerResult) : bool :=
  redacted r && str_eq (field_type r) (str "URL").

(** The lookup made for a consulted entry. *)
Definition lookup_of (content : text) (r : RecognizerResult) : event :=
  ReputationCall (url_of content r) (str "crowdstrike").

Definition is_completion (ev : event) : bool :=
  match ev with
  | CompletionCall _ _ => true
  | _ => false
  end.

Definition user_entry (t : text) : ChatMessage * text :=
  ({| role := str "user"; content := t |}, t).

(** Where the handler saves: the explicit path, or the fallback one. *)
Definition save_path (args : Args) : string :=
  match previous_conversation args with
  | Some p => p
  | None => default_file
  end.

(** The points of the loop between the assignment of line 122 and the
    end of the turn. *)
Definition storing (s : session) : bool :=
  match state s with
  | Running (Flagged _ _ _) | Running (UserStored _ _) => true
  | _ => false
  end.

(** What a session that started from the files [fs] has done to the
    file system: nothing while it
    runs or after a crash; once the handler has run, nothing, or one
    write of the whole conversation at the save path, and that only with
    [edited] on. *)
Definition saved_once (env : Env) (args : Args) (fs : gmap string text)
    (s : session) : Prop :=
  match state s with
  | Exited _ =>
      (writes s = [] /\ files s = fs /\ edited s = false)
      \/ (edited s = true
          /\ writes s = [(save_path args, json_dump env (previous s))]
          /\ files s = <[save_path args := json_dump env (previous s)]> fs)
  | _ => writes s = [] /\ files s = fs
  end.

(** The invariant of a session that started from the files [fs] with
    the conversation [start_]: the conversation is the initial one as
    long as [edited] is off, [edited] is on between line 122 and the end
    of the turn, and the file system is touched by the handler only. *)
Definition session_inv (env : Env) (args : Args) (fs : gmap string text)
    (start_ : Messages) (s : session) : Prop :=
  (edited s = false -> previous s = start_ /\ storing s = false)
  /\ saved_once env args fs s.

(** The five statements of one turn: read and classify, ask, flag,
    store the user entry, store the reply. *)
Definition one_turn : list action := [Step; Step; Step; Step; Step].

(** ** Start-up, the bind address and the replay of a conversation *)

(** What lines 31-38 read from the environment. *)
Record Settings := {
  api_key : text;
  pangea_domain : text;
  pangea_token : text
}.

(** The checks of lines 31-38 over the process environment: the
    completion key must be set and not empty (the test of line 31 is on
    its truth value), the platform domain has a default, and the platform
    token must be set (the test of line 37 is against [None]). *)
Definition environment_checks (environ : gmap string text) : res Settings :=
  match environ !! "OPENAI_API_KEY"%string with
  | Some (c :: key) =>
      let domain :=
        match environ !! "PANGEA_DOMAIN"%string with
        | Some d => d
        | None => str "aws.us.pangea.cloud"
        end in
      match environ !! "PANGEA_TOKEN"%string with
      | None => Raise (ValueError (str "'PANGEA_TOKEN' is a required env var"))
      | Some token =>
          Ok {| api_key := c :: key; pangea_domain := domain; pangea_token := token |}
      end
  | _ => Raise (ValueError (str "'OPENAI_API_KEY' is a required env var"))
  end.

(** Lines 31-42, the start of the module: the checks, then the
    construction of the platform clients from the domain and the token
    read.  The constructors [PangeaConfig], [Redact] and [DomainIntel]
    belong to the platform's library and may refuse what they are given;
    they are the parameter [connect]. *)
Definition startup {Clients : Type} (connect : Settings -> res Clients)
    (environ : gmap string text) : res (Settings * Clients) :=
  match environment_checks environ with
  | Raise e => Raise e
  | Ok settings =>
      match connect settings with
      | Raise e => Raise e
      | Ok clients => Ok (settings, clients)
      end
  end.

(** A stand-in for the constructors that refuses an empty token. *)
Definition strict_connect (settings : Settings) : res unit :=
  match pangea_token settings with
  | [] => Raise (AdapterError (str "pangea"))
  | _ :: _ => Ok tt
  end.

(** Lines 76-82 of [run_flask]: the address handed to [urlparse] and to
    the browser. *)
Definition bind_address (bind : text) : res text :=
  if startswith bind (str "https://") then
    Raise (ValueError (str "pangea-gpt.py does not support https."))
  else if startswith bind (str "http://") then Ok bind
  else Ok (str "http://" ++ bind).

Definition FROM_USER_PROMPT : text :=
  newline :: str "<============================== From User" ++ [newline; newline].

Definition CLASSIFIED_PROMPT : text :=
  newline :: str "-------- Redacted Data ----------" ++ [newline].

(** [print_from_gpt] (lines 137-141): the arguments of its four calls
    of [print], in order. *)
Definition print_from_gpt (message redacted : text) : list text :=
  [ newline :: str "From Chat-GPT 3.5 ==============================>" ++ [newline];
    message;
    newline :: str "---------- Redacted Text ----------" ++ [newline];
    redacted ].

(** [print_from_user] (lines 144-148). *)
Definition print_from_user (message classified_data : text) : list text :=
  [ FROM_USER_PROMPT; message; CLASSIFIED_PROMPT; classified_data ].

(** [print_messages] (lines 127-134). *)
Fixpoint print_messages (messages : Messages) : list text :=
  match messages with
  | [] => []
  | (message, redaction) :: rest =>
      let role := role message in
      let content := content message in
      (if str_eq role (str "user") then print_from_user content redaction
       else if str_eq role (str "assistant") then print_from_gpt content redaction
       else [])
      ++ print_messages rest
  end.

(** The entries [print_messages] shows. *)
Definition shown (e : ChatMessage * text) : bool :=
  str_eq (role e.1) (str "user") || str_eq (role e.1) (str "assistant").

(** An entry as the two front ends append it: a user entry whose
    annotated text is its content, or an assistant entry. *)
Definition turn_entry (e : ChatMessage * text) : Prop :=
  (role e.1 = str "user" /\ content e.1 = e.2) \/ role e.1 = str "assistant".

(** The reply held at a point of the loop is an assistant message. *)
Definition holds_reply (s : session) : Prop :=
  match state s with
  | Running (Answered _ g _) | Running (Flagged _ g _) | Running (UserStored g _) =>
      role g = str "assistant"
  | _ => True
  end.

(** The conversation of a session extends the one it started with by
    entries of the two kinds above. *)
Definition extends (start_ : Messages) (s : session) : Prop :=
  (exists added, previous s = start_ ++ added /\ Forall turn_entry added)
  /\ holds_reply s.

(** ** Deployments with a fault

    The sample deployment with one thing going wrong: a service that is
    down, a redaction answer without its parsed result or without its
    report, or a response body without its [summary]. *)

Module Faulty.

Inductive fault :=
| NoCompletion
| NoRedaction
| NoResult
| NoReport
| NoSummary
| NoReputation.

Definition down (service : string) : exn := AdapterError (str service).

Definition env (f : fault) (answer : text) (spans : list RecognizerResult) : Env :=
  let base := Sample.env answer spans (str "malicious") in
  {| chat_completion := fun messages model =>
       match f with
       | NoCompletion => Raise (down "completion")
       | _ => chat_completion base messages model
       end;
     redact := fun txt rules debug =>
       match f with
       | NoRedaction => Raise (down "redact")
       | NoResult =>
           Ok {| raw_response := Sample.body (Sample.mask_digits txt); result := None |}
       | NoReport =>
           Ok {| raw_response := Sample.body (Sample.mask_digits txt);
                 result := Some {| redacted_text := Sample.mask_digits txt;
                                   report := None |} |}
       | NoSummary =>
           Ok {| raw_response := JObject [ (str "result", JObject []) ];
                 result := Some {| redacted_text := Sample.mask_digits txt;
                                   report := Some {| recognizer_results := spans |} |} |}
       | _ => redact base txt rules debug
       end;
     reputation := fun domain provider =>
       match f with
       | NoReputation => Raise (down "domain-intel")
       | _ => reputation base domain provider
       end;
     json_dump := json_dump base;
     json_load := json_load base |}.

End Faulty.

(** The sample deployment with a [json.load] that reads back the one
    conversation [conv] from what [json.dump] writes for it. *)
Definition remembering (conv : Messages) : Env :=
  let base := Sample.env (str "Hello") [] (str "benign") in
  {| chat_completion := chat_completion base;
     redact := redact base;
     reputation := reputation base;
     json_dump := json_dump base;
     json_load := fun data =>
       if str_eq data (json_dump base conv) then Ok conv else json_load base data |}.

(** ** Facts about slices *)

Section slices.
Implicit Types (t r : text) (i s e : Z).

Lemma bound_in_range (n : nat) i :
  0 <= i <= Z.of_nat n -> bound n i = Z.to_nat i.
Proof.
  intros [Hlo Hhi]. unfold bound.
  destruct (Z.ltb_spec i 0); [lia|]. f_equal. lia.
Qed.

Lemma bound_le (n : nat) i : (bound n i <= n)%nat.
Proof. unfold bound. destruct (Z.ltb_spec i 0); lia. Qed.

Lemma slice_to_take t i :
  0 <= i <= len t -> slice_to t i = take (Z.to_nat i) t.
Proof. intros H. unfold slice_to. by rewrite bound_in_range. Qed.

Lemma slice_from_drop t i :
  0 <= i <= len t -> slice_from t i = drop (Z.to_nat i) t.
Proof. intros H. unfold slice_from. by rewrite bound_in_range. Qed.

Lemma slice_take_drop t s e :
  0 <= s <= e -> e <= len t ->
  slice t s e = take (Z.to_nat e - Z.to_nat s)%nat (drop (Z.to_nat s) t).
Proof.
  intros Hs He. unfold slice, len in *.
  rewrite !bound_in_range by lia. done.
Qed.

Lemma replace_word_take_drop t r s e :
  0 <= s <= e -> e <= len t ->
  replace_word t r s e = take (Z.to_nat s) t ++ r ++ drop (Z.to_nat e) t.
Proof.
  intros Hs He. unfold replace_word.
  rewrite slice_to_take, slice_from_drop by lia. done.
Qed.

Lemma replace_word_length t r s e :
  0 <= s <= e -> e <= len t ->
  len (replace_word t r s e) = len t - (e - s) + len r.
Proof.
  intros Hs He. rewrite replace_word_take_drop by done.
  unfold len in *. rewrite !length_app, length_take, length_drop. lia.
Qed.

(** Text at or after the end of a replaced span moves by the
    difference between the replacement's length and the span's. *)
Lemma replace_word_shift t r s e p :
  0 <= s <= e -> e <= p -> p <= len t ->
  slice_from (replace_word t r s e) (p + (len r - (e - s))) = slice_from t p.
Proof.
  intros Hs Hp Hl.
  assert (Hlen := replace_word_length t r s e Hs ltac:(lia)).
  assert (0 <= len r) by (unfold len; lia).
  rewrite !slice_from_drop by lia.
  rewrite replace_word_take_drop by lia.
  unfold len in *.
  rewrite drop_app_ge by (rewrite length_take; lia).
  rewrite length_take.
  rewrite drop_app_ge by lia.
  rewrite drop_drop. f_equal. lia.
Qed.

End slices.

(** ** The splice and the order of two replacements *)

Section order.
Implicit Types (t r : text).

(** Replacing the later span first leaves the earlier span's offsets
    valid. *)
Lemma splice_later_first t r1 r2 (a1 b1 a2 b2 : nat) :
  (a1 <= b1 <= a2)%nat -> (a2 <= b2 <= length t)%nat ->
  take a1 (take a2 t ++ r2 ++ drop b2 t) ++ r1 ++ drop b1 (take a2 t ++ r2 ++ drop b2 t)
  = take a1 t ++ r1 ++ take (a2 - b1) (drop b1 t) ++ r2 ++ drop b2 t.
Proof.
  intros H1 H2.
  rewrite take_app_le by (rewrite length_take; lia).
  rewrite take_take, Nat.min_l by lia.
  rewrite drop_app_le by (rewrite length_take; lia).
  rewrite take_drop_commute.
  replace (b1 + (a2 - b1))%nat with a2 by lia.
  by rewrite <- ?app_assoc.
Qed.

(** Replacing the earlier span first keeps the later span's offsets
    valid when the replacement is as long as the span. *)
Lemma splice_earlier_first t r1 r2 (a1 b1 a2 b2 : nat) :
  (a1 <= b1 <= a2)%nat -> (a2 <= b2 <= length t)%nat ->
  length r1 = (b1 - a1)%nat ->
  take a2 (take a1 t ++ r1 ++ drop b1 t) ++ r2 ++ drop b2 (take a1 t ++ r1 ++ drop b1 t)
  = take a1 t ++ r1 ++ take (a2 - b1) (drop b1 t) ++ r2 ++ drop b2 t.
Proof.
  intros H1 H2 Hr.
  assert (Ha : length (take a1 t) = a1) by (rewrite length_take; lia).
  rewrite !take_app_ge, !drop_app_ge by lia.
  rewrite Ha, Hr, drop_drop.
  replace (a2 - a1 - (b1 - a1))%nat with (a2 - b1)%nat by lia.
  replace (b1 + (b2 - a1 - (b1 - a1)))%nat with b2 by lia.
  by rewrite <- ?app_assoc.
Qed.

End order.

(** C3 as stated fails: with both spans' offsets taken against the
    original text, the two orders of application differ as soon as the
    first replacement changes the length of the text. *)
Lemma replace_word_order_differs :
  let T := str "abcdef" in
  0 <= 0 <= 1 /\ 1 <= 3 <= 4 /\ 4 <= len T /\
  replace_word (replace_word T (str "XYZ") 0 1) (str "Q") 3 4
  <> replace_word (replace_word T (str "Q") 3 4) (str "XYZ") 0 1.
Proof. vm_compute. repeat split; discriminate. Qed.

(** C3 (amended): at offsets [0 <= s1 <= e1 <= len T] the splice returns
    [T[:s1] + R1 + T[e1:]]; for a second span [e1 <= s2 <= e2 <= len T],
    replacing the later span first always yields
    [T[:s1] + R1 + T[e1:s2] + R2 + T[e2:]], and replacing the earlier span
    first yields the same text when [R1] is as long as the span it
    replaces. *)
Theorem replace_word_splice_order (T R1 R2 : text) (s1 e1 s2 e2 : Z) :
  0 <= s1 <= e1 -> e1 <= s2 <= e2 -> e2 <= len T ->
  replace_word T R1 s1 e1 = take (Z.to_nat s1) T ++ R1 ++ drop (Z.to_nat e1) T
  /\ replace_word (replace_word T R2 s2 e2) R1 s1 e1
     = slice_to T s1 ++ R1 ++ slice T e1 s2 ++ R2 ++ slice_from T e2
  /\ (len R1 = e1 - s1 ->
      replace_word (replace_word T R1 s1 e1) R2 s2 e2
      = replace_word (replace_word T R2 s2 e2) R1 s1 e1).
Proof.
  intros H1 H2 H3.
  assert (Hlater :
    replace_word (replace_word T R2 s2 e2) R1 s1 e1
    = slice_to T s1 ++ R1 ++ slice T e1 s2 ++ R2 ++ slice_from T e2).
  { assert (Hl := replace_word_length T R2 s2 e2 ltac:(lia) ltac:(lia)).
    assert (0 <= len R2) by (unfold len; lia).
    rewrite (replace_word_take_drop _ R1 s1 e1) by lia.
    rewrite (replace_word_take_drop T R2 s2 e2) by lia.
    rewrite slice_to_take, slice_from_drop, slice_take_drop by lia.
    unfold len in *.
    by rewrite splice_later_first by lia. }
  split; [by apply replace_word_take_drop; lia|].
  split; [done|].
  intros Hr. rewrite Hlater.
  assert (Hl := replace_word_length T R1 s1 e1 ltac:(lia) ltac:(lia)).
  rewrite (replace_word_take_drop _ R2 s2 e2) by lia.
  rewrite (replace_word_take_drop T R1 s1 e1) by lia.
  rewrite slice_to_take, slice_from_drop, slice_take_drop by lia.
  unfold len in *.
  by rewrite splice_earlier_first by lia.
Qed.

Lemma replace_word_splice_order_witness :
  let T := str "abcdef" in
  replace_word T (str "X") 0 1 = str "Xbcdef"
  /\ replace_word (replace_word T (str "Q") 3 4) (str "X") 0 1 = str "XbcQef"
  /\ replace_word (replace_word T (str "X") 0 1) (str "Q") 3 4
     = replace_word (replace_word T (str "Q") 3 4) (str "X") 0 1.
Proof.
  destruct (replace_word_splice_order (str "abcdef") (str "X") (str "Q") 0 1 3 4)
    as (Ha & Hb & Hc); [lia | lia | vm_compute; discriminate |].
  intros T. split; [exact Ha | split; [exact Hb | apply Hc; reflexivity]].
Defined.

(** ** One entry of the report *)

Section entries.
Variable env : Env.
Implicit Types (content t : text) (r : RecognizerResult) (tr : list event).

Lemma str_eq_refl (a : text) : str_eq a a = true.
Proof. unfold str_eq. by rewrite bool_decide_true. Qed.

Lemma str_eq_true (a b : text) : str_eq a b = true -> a = b.
Proof. unfold str_eq. intros H. by apply bool_decide_eq_true in H. Qed.

Lemma startswith_prefix (t p : text) :
  startswith t p = true <-> exists rest, t = p ++ rest.
Proof.
  revert t. induction p as [|c p IH]; intros t; simpl.
  - split; [intros _; by exists t | done].
  - destruct t as [|d t]; [split; [done | intros [rest H]; discriminate]|].
    destruct (decide (c = d)) as [->|Hne].
    + rewrite IH. split; intros [rest H]; exists rest; [by rewrite H | by inversion H].
    + split; [done | intros [rest H]; inversion H; congruence].
Qed.

Lemma slice_from_prefix (p rest : text) : slice_from (p ++ rest) (len p) = rest.
Proof.
  rewrite slice_from_drop by (unfold len; rewrite length_app; lia).
  unfold len. rewrite Nat2Z.id. apply drop_app_length.
Qed.

(** The domain handed to the reputation service is the span's text less
    a leading [http://] or, failing that, a leading [https://]. *)
Lemma url_of_strips content r :
  let u := slice content (start r) (end_ r) in
  (exists rest, u = str "http://" ++ rest /\ url_of content r = rest)
  \/ (exists rest, u = str "https://" ++ rest /\ url_of content r = rest)
  \/ ((forall rest, u <> str "http://" ++ rest)
      /\ (forall rest, u <> str "https://" ++ rest)
      /\ url_of content r = u).
Proof.
  intros u. unfold url_of. fold u.
  destruct (startswith u (str "http://")) eqn:H1.
  { left. apply startswith_prefix in H1 as [rest ->]. exists rest. split; [done|].
    apply (slice_from_prefix (str "http://")). }
  destruct (startswith u (str "https://")) eqn:H2.
  { right; left. apply startswith_prefix in H2 as [rest ->]. exists rest. split; [done|].
    apply (slice_from_prefix (str "https://")). }
  right; right. repeat split.
  - intros rest Hu. assert (startswith u (str "http://") = true) by (apply startswith_prefix; eauto).
    congruence.
  - intros rest Hu. assert (startswith u (str "https://") = true) by (apply startswith_prefix; eauto).
    congruence.
Qed.

Lemma annotate_step_not_redacted content r t tr :
  redacted r = false -> annotate_step env content r t tr = (Ok t, tr).
Proof. intros H. unfold annotate_step. by rewrite H. Qed.

Lemma annotate_step_tag content r t tr :
  redacted r = true -> field_type r <> str "URL" ->
  annotate_step env content r t tr
  = (Ok (replace_word t (str "<" ++ field_type r ++ str ">") (start r) (end_ r)), tr).
Proof.
  intros H Hft. unfold annotate_step, str_eq. rewrite H.
  by rewrite bool_decide_false.
Qed.

Lemma annotate_step_consulted content r t tr :
  redacted r = true -> field_type r = str "URL" ->
  annotate_step env content r t tr
  = (match reputation env (url_of content r) (str "crowdstrike") with
     | Ok verdict =>
         Ok (if str_eq verdict (str "malicious")
             then replace_word t (str "<MALICIOUS_URL>") (start r) (end_ r)
             else t)
     | Raise e => Raise e
     end,
     tr ++ [lookup_of content r]).
Proof.
  intros H Hft. unfold annotate_step. rewrite H, Hft, str_eq_refl.
  unfold bind, domain_intel_api, call, lookup_of.
  destruct (reputation env _ _) as [verdict|e]; [|done].
  by destruct (str_eq verdict _).
Qed.

(** The calls made by the whole loop, when it completes. *)
Lemma annotate_trace content rs t tr t' tr' :
  annotate env content rs t tr = (Ok t', tr') ->
  tr' = tr ++ map (lookup_of content) (List.filter consulted rs).
Proof.
  revert t tr. induction rs as [|r rs IH]; intros t tr H; cbn [annotate] in H.
  - unfold ret in H. inversion H. by rewrite app_nil_r.
  - unfold bind in H.
    destruct (annotate_step env content r t tr) as [[t1|e] tr1] eqn:Hstep; [|done].
    apply IH in H. subst tr'. clear IH. cbn [List.filter].
    destruct (redacted r) eqn:Hred.
    + destruct (decide (field_type r = str "URL")) as [Hft|Hft].
      * rewrite annotate_step_consulted in Hstep by done. injection Hstep as _ <-.
        replace (consulted r) with true
          by (unfold consulted; by rewrite Hred, Hft, str_eq_refl).
        cbn [map]. by rewrite <- app_assoc.
      * rewrite annotate_step_tag in Hstep by done. injection Hstep as _ <-.
        replace (consulted r) with false; [done|].
        unfold consulted, str_eq. by rewrite Hred, bool_decide_false.
    + rewrite annotate_step_not_redacted in Hstep by done. injection Hstep as _ <-.
      replace (consulted r) with false; [done|].
      unfold consulted. by rewrite Hred.
Qed.

End entries.

(** ** The entries tagged URL *)

(** C1 as stated fails: an entry tagged URL whose [redacted] flag is off
    is skipped by the guard of line 182, so the reputation service is not
    asked and the span stays, even though the verdict would be
    [malicious]. *)
Lemma unflagged_url_not_consulted :
  let env := Sample.env (str "ok") [] (str "malicious") in
  let content := str "see http://evil.example now" in
  let r := Sample.span (str "URL") 4 23 false in
  field_type r = str "URL"
  /\ reputation env (url_of content r) (str "crowdstrike") = Ok (str "malicious")
  /\ annotate env content [r] content [] = (Ok content, [])
  /\ content <> replace_word content (str "<MALICIOUS_URL>") 4 23.
Proof. vm_compute. repeat split; discriminate. Qed.

(** ** The length of a replacement *)

(** C2 as stated fails: the placeholder is longer than the span it
    replaces for a six-character address and for an eleven-character
    URL, and the text after the span moves. *)
Lemma placeholder_longer_than_span :
  let env := Sample.env (str "ok") [] (str "malicious") in
  let content := str "mail a@b.co or see http://t.co now" in
  let mail := Sample.span (str "EMAIL_ADDRESS") 5 11 true in
  let url := Sample.span (str "URL") 19 30 true in
  annotate_step env content mail content []
  = (Ok (replace_word content (str "<EMAIL_ADDRESS>") 5 11), [])
  /\ ~ len (str "<EMAIL_ADDRESS>") <= 11 - 5
  /\ annotate_step env content url content []
     = (Ok (replace_word content (str "<MALICIOUS_URL>") 19 30),
        [ReputationCall (str "t.co") (str "crowdstrike")])
  /\ ~ len (str "<MALICIOUS_URL>") <= 30 - 19.
Proof.
  intros env content mail url.
  split; [vm_compute; reflexivity|].
  split; [vm_compute; intros H; by apply H|].
  split; [vm_compute; reflexivity|].
  vm_compute; intros H; by apply H.
Qed.

(** The known risk, on two entries: once the address has been replaced
    by a longer placeholder, the offsets of the URL no longer point at
    the URL in the text being annotated. *)
Example offsets_drift_after_longer_placeholder :
  let env := Sample.env (str "ok") [] (str "malicious") in
  let content := str "mail a@b.co or see http://t.co now" in
  let mail := Sample.span (str "EMAIL_ADDRESS") 5 11 true in
  let url := Sample.span (str "URL") 19 30 true in
  annotate env content [mail; url] content []
  = (Ok (str "mail <EMAIL_ADDRESS<MALICIOUS_URL>tp://t.co now"),
     [ReputationCall (str "t.co") (str "crowdstrike")]).
Proof. vm_compute. reflexivity. Qed.

(** C2 (amended): a replacement applied by the pass is [<MALICIOUS_URL>],
    of 15 characters, or the tag placeholder, of [len(field_type) + 2]
    characters, whatever the length of the span.  At offsets valid in the
    text being annotated it changes the length of the text by
    [len(R) - (end - start)] and moves everything after the span by that
    much, so later offsets stay aligned exactly when the two lengths are
    equal. *)
Theorem replacement_length_and_shift (env : Env) (content t t' : text)
    (r : RecognizerResult) (tr tr' : list event) :
  annotate_step env content r t tr = (Ok t', tr') ->
  0 <= start r <= end_ r -> end_ r <= len t ->
  t' = t
  \/ exists R,
       (R = str "<MALICIOUS_URL>" /\ len R = 15
        \/ R = str "<" ++ field_type r ++ str ">" /\ len R = len (field_type r) + 2)
       /\ t' = replace_word t R (start r) (end_ r)
       /\ len t' = len t + (len R - (end_ r - start r))
       /\ forall p, end_ r <= p <= len t ->
            slice_from t' (p + (len R - (end_ r - start r))) = slice_from t p.
Proof.
  intros Hstep Hs He.
  assert (Hsplice : forall R, t' = replace_word t R (start r) (end_ r) ->
    t' = replace_word t R (start r) (end_ r)
    /\ len t' = len t + (len R - (end_ r - start r))
    /\ forall p, end_ r <= p <= len t ->
         slice_from t' (p + (len R - (end_ r - start r))) = slice_from t p).
  { intros R ->. split; [done|]. split.
    - rewrite replace_word_length by done. lia.
    - intros p Hp. apply replace_word_shift; lia. }
  destruct (redacted r) eqn:Hred.
  - destruct (decide (field_type r = str "URL")) as [Hft|Hft].
    + rewrite annotate_step_consulted in Hstep by done.
      destruct (reputation env _ _) as [verdict|e]; [|done].
      destruct (str_eq verdict _); injection Hstep as <- _; [|by left].
      right. exists (str "<MALICIOUS_URL>"). split; [by left | by apply Hsplice].
    + rewrite annotate_step_tag in Hstep by done. injection Hstep as <- _.
      right. exists (str "<" ++ field_type r ++ str ">"). split; [|by apply Hsplice].
      right. split; [done|]. unfold len. rewrite !length_app.
      change (length (str "<")) with 1%nat. change (length (str ">")) with 1%nat. lia.
  - rewrite annotate_step_not_redacted in Hstep by done. injection Hstep as <- _. by left.
Qed.

Lemma replacement_length_and_shift_witness :
  let env := Sample.env (str "ok") [] (str "malicious") in
  let content := str "mail a@b.co or see http://t.co now" in
  let mail := Sample.span (str "EMAIL_ADDRESS") 5 11 true in
  exists t', annotate_step env content mail content [] = (Ok t', [])
    /\ len t' = len content + (15 - (11 - 5))
    /\ slice_from t' (19 + (15 - (11 - 5))) = slice_from content 19.
Proof.
  intros env content mail.
  exists (str "mail <EMAIL_ADDRESS> or see http://t.co now").
  assert (Hstep : annotate_step env content mail content []
                  = (Ok (str "mail <EMAIL_ADDRESS> or see http://t.co now"), []))
    by (vm_compute; reflexivity).
  split; [exact Hstep|].
  destruct (replacement_length_and_shift env content content _ mail [] [] Hstep)
    as [Heq | (R & HR & _ & Hlen & Hshift)].
  - vm_compute; split; discriminate.
  - vm_compute; discriminate.
  - vm_compute in Heq. discriminate.
  - destruct HR as [[-> _] | [-> _]].
    + vm_compute in Hlen |- *. split; reflexivity.
    + split; [exact Hlen|]. apply (Hshift 19). vm_compute. split; discriminate.
Defined.

(** ** One call of [send_chatgpt_message] *)

Section turn.
Variables (env : Env) (message : text) (previous_messages : Messages).
Variables (redact_rules : list text) (tr : list event).
Variables (chat_message : ChatMessage) (redact_response : RedactResponse).
Variables (payload : json) (redacted_result : RedactResult) (spans : list RecognizerResult).

Local Abbreviation request :=
  (map fst previous_messages ++ [{| role := str "user"; content := message |}]).
Local Abbreviation model := (str "gpt-3.5-turbo").
Local Abbreviation reply := (content chat_message).
Local Abbreviation asked :=
  ((tr ++ [CompletionCall request model]) ++ [RedactCall reply redact_rules true]).

Hypothesis Hcompletion : chat_completion env request model = Ok chat_message.
Hypothesis Hredact : redact env reply redact_rules true = Ok redact_response.
Hypothesis Hpayload : audit_payload (raw_response redact_response) = Ok payload.
Hypothesis Hresult : result redact_response = Some redacted_result.
Hypothesis Hreport : report redacted_result = Some {| recognizer_results := spans |}.

(** With the two services answering, the call returns what the loop
    over the report returns. *)
Lemma send_chatgpt_message_annotates (annotated : text) (tr' : list event) :
  annotate env reply spans reply asked = (Ok annotated, tr') ->
  send_chatgpt_message env message previous_messages redact_rules tr
  = (Ok ({| role := str "assistant"; content := reply |}, annotated,
         dumps (Some 2%nat) payload), tr').
Proof using All.
  intros Hloop.
  unfold send_chatgpt_message, bind, openai_create, redact_api, call, lift.
  rewrite Hcompletion, Hredact, Hpayload, Hresult. cbn [assert_some ret].
  rewrite Hreport. cbn [assert_some ret recognizer_results].
  by rewrite Hloop.
Qed.

(** C7: with no entry in the detection report, the annotated reply is
    the raw reply. *)
Theorem no_spans_annotated_is_raw :
  spans = [] ->
  send_chatgpt_message env message previous_messages redact_rules tr
  = (Ok ({| role := str "assistant"; content := reply |}, reply,
         dumps (Some 2%nat) payload), asked).
Proof using All.
  intros Hnone. apply send_chatgpt_message_annotates. by rewrite Hnone.
Qed.

(** C6: with a single entry whose tag is not URL and whose [redacted]
    flag is on, at offsets [0 <= start <= end <= len(content)], the
    annotated reply is the content with the span replaced by the tag
    between angle brackets; the text before [start] and from [end] on is
    unchanged. *)
Theorem single_tag_span_replaced (r : RecognizerResult) :
  spans = [r] ->
  field_type r <> str "URL" -> redacted r = true ->
  0 <= start r <= end_ r -> end_ r <= len reply ->
  send_chatgpt_message env message previous_messages redact_rules tr
  = (Ok ({| role := str "assistant"; content := reply |},
         take (Z.to_nat (start r)) reply
         ++ (str "<" ++ field_type r ++ str ">")
         ++ drop (Z.to_nat (end_ r)) reply,
         dumps (Some 2%nat) payload), asked).
Proof using All.
  intros Hone Hft Hred Hs He. apply send_chatgpt_message_annotates.
  rewrite Hone. cbn [annotate]. unfold bind. rewrite annotate_step_tag by done.
  by rewrite replace_word_take_drop.
Qed.

(** C5 (amended): with a single entry tagged URL whose [redacted] flag
    is on and whose domain the reputation service calls [malicious], at
    offsets [0 <= start <= end <= len(content)], the annotated reply is
    the content with exactly the span replaced by [<MALICIOUS_URL>]. *)
Theorem single_malicious_url_replaced (r : RecognizerResult) :
  spans = [r] ->
  field_type r = str "URL" -> redacted r = true ->
  reputation env (url_of reply r) (str "crowdstrike") = Ok (str "malicious") ->
  0 <= start r <= end_ r -> end_ r <= len reply ->
  send_chatgpt_message env message previous_messages redact_rules tr
  = (Ok ({| role := str "assistant"; content := reply |},
         take (Z.to_nat (start r)) reply
         ++ str "<MALICIOUS_URL>"
         ++ drop (Z.to_nat (end_ r)) reply,
         dumps (Some 2%nat) payload),
     asked ++ [ReputationCall (url_of reply r) (str "crowdstrike")]).
Proof using All.
  intros Hone Hft Hred Hmal Hs He. apply send_chatgpt_message_annotates.
  rewrite Hone. cbn [annotate]. unfold bind. rewrite annotate_step_consulted by done.
  rewrite Hmal, str_eq_refl. by rewrite replace_word_take_drop.
Qed.

End turn.

Lemma no_spans_annotated_is_raw_witness :
  exists raw tr',
    send_chatgpt_message (Sample.env (str "Hello there") [] (str "benign"))
      (str "hi") [] [] []
    = (Ok ({| role := str "assistant"; content := str "Hello there" |},
           str "Hello there", raw), tr').
Proof.
  do 2 eexists.
  eapply (no_spans_annotated_is_raw (Sample.env (str "Hello there") [] (str "benign"))
            (str "hi") [] [] []
            {| role := str "assistant"; content := str "Hello there" |});
    reflexivity.
Defined.

Lemma single_tag_span_replaced_witness :
  let mail := Sample.span (str "EMAIL_ADDRESS") 5 11 true in
  exists raw tr',
    send_chatgpt_message (Sample.env (str "mail a@b.co today") [mail] (str "benign"))
      (str "hi") [] [] []
    = (Ok ({| role := str "assistant"; content := str "mail a@b.co today" |},
           str "mail <EMAIL_ADDRESS> today", raw), tr').
Proof.
  intros mail. do 2 eexists.
  eapply (single_tag_span_replaced
            (Sample.env (str "mail a@b.co today") [mail] (str "benign"))
            (str "hi") [] [] []
            {| role := str "assistant"; content := str "mail a@b.co today" |}
            _ _ _ [mail]
            eq_refl eq_refl eq_refl eq_refl eq_refl mail eq_refl).
  - vm_compute; discriminate.
  - reflexivity.
  - vm_compute; split; discriminate.
  - vm_compute; discriminate.
Defined.

(** C5 as stated fails: a single entry tagged URL whose domain the
    reputation service calls [malicious], but whose [redacted] flag is
    off, is left in the annotated reply. *)
Lemma unflagged_malicious_url_kept :
  let content := str "see http://evil.example now" in
  let r := Sample.span (str "URL") 4 23 false in
  let env := Sample.env content [r] (str "malicious") in
  reputation env (url_of content r) (str "crowdstrike") = Ok (str "malicious")
  /\ match send_chatgpt_message env (str "hi") [] [] [] with
     | (Ok (_, annotated, _), _) =>
         annotated = content
         /\ annotated <> take 4 content ++ str "<MALICIOUS_URL>" ++ drop 23 content
     | _ => False
     end.
Proof. vm_compute. repeat split; discriminate. Qed.

Lemma single_malicious_url_replaced_witness :
  let content := str "see http://evil.example now" in
  let r := Sample.span (str "URL") 4 23 true in
  exists raw tr',
    send_chatgpt_message (Sample.env content [r] (str "malicious")) (str "hi") [] [] []
    = (Ok ({| role := str "assistant"; content := content |},
           str "see <MALICIOUS_URL> now", raw), tr').
Proof.
  intros content r. do 2 eexists.
  eapply (single_malicious_url_replaced
            (Sample.env content [r] (str "malicious"))
            (str "hi") [] [] []
            {| role := str "assistant"; content := content |}
            _ _ _ [r]
            eq_refl eq_refl eq_refl eq_refl eq_refl r eq_refl).
  - reflexivity.
  - reflexivity.
  - reflexivity.
  - vm_compute; split; discriminate.
  - vm_compute; discriminate.
Defined.

(** ** The audit report *)

Lemma audit_payload_inv (j p : json) :
  audit_payload j = Ok p ->
  exists members inner,
    j = JObject members
    /\ lookup_key (str "summary") members <> None
    /\ lookup_key (str "result") (remove_key (str "summary") members)
       = Some (JObject inner)
    /\ lookup_key (str "redacted_text") inner <> None
    /\ p = JObject (update_key (str "result")
                      (JObject (remove_key (str "redacted_text") inner))
                      (remove_key (str "summary") members)).
Proof.
  unfold audit_payload, pop, getitem. intros H.
  destruct j as [| | | |items|members]; try discriminate.
  destruct (lookup_key (str "summary") members) as [v|] eqn:Hsum; [|discriminate].
  destruct (lookup_key (str "result") _) as [inner_|] eqn:Hres; [|discriminate].
  destruct inner_ as [| | | |items|inner]; try discriminate.
  destruct (lookup_key (str "redacted_text") inner) as [w|] eqn:Hred; [|discriminate].
  injection H as <-. exists members, inner. rewrite Hsum, Hred. by repeat split.
Qed.

(** The members other than the one removed or updated are untouched. *)
Lemma lookup_remove_key_ne (k k' : text) (members : list (text * json)) :
  k <> k' -> lookup_key k (remove_key k' members) = lookup_key k members.
Proof.
  intros Hne. induction members as [|[k0 v] members IH]; [done|].
  cbn [remove_key lookup_key]. unfold str_eq.
  destruct (decide (k' = k0)) as [->|Hk'].
  - rewrite bool_decide_true by done. by rewrite bool_decide_false.
  - rewrite (bool_decide_false (k' = k0)) by done.
    cbn [lookup_key]. unfold str_eq. by rewrite IH.
Qed.

Lemma lookup_update_key_ne (k k' : text) (v : json) (members : list (text * json)) :
  k <> k' -> lookup_key k (update_key k' v members) = lookup_key k members.
Proof.
  intros Hne. induction members as [|[k0 v0] members IH]; [done|].
  cbn [update_key lookup_key]. unfold str_eq.
  destruct (decide (k' = k0)) as [->|Hk'].
  - rewrite (bool_decide_true (k0 = k0)) by done.
    cbn [lookup_key]. unfold str_eq. by rewrite !bool_decide_false.
  - rewrite (bool_decide_false (k' = k0)) by done.
    cbn [lookup_key]. unfold str_eq. by rewrite IH.
Qed.

Lemma send_chatgpt_message_inv (env : Env) (message : text) (previous_messages : Messages)
    (redact_rules : list text) (tr tr' : list event)
    (m : ChatMessage) (annotated raw : text) :
  send_chatgpt_message env message previous_messages redact_rules tr
  = (Ok (m, annotated, raw), tr') ->
  exists cm rr p rres rep,
    chat_completion env
      (map fst previous_messages ++ [{| role := str "user"; content := message |}])
      (str "gpt-3.5-turbo") = Ok cm
    /\ redact env (content cm) redact_rules true = Ok rr
    /\ audit_payload (raw_response rr) = Ok p
    /\ result rr = Some rres
    /\ report rres = Some rep
    /\ annotate env (content cm) (recognizer_results rep) (content cm)
         ((tr ++ [CompletionCall
                    (map fst previous_messages
                     ++ [{| role := str "user"; content := message |}])
                    (str "gpt-3.5-turbo")])
          ++ [RedactCall (content cm) redact_rules true])
       = (Ok annotated, tr')
    /\ m = {| role := str "assistant"; content := content cm |}
    /\ raw = dumps (Some 2%nat) p.
Proof.
  unfold send_chatgpt_message, bind, openai_create, redact_api, call, lift.
  intros H.
  destruct (chat_completion env _ _) as [cm|e] eqn:Hcm; [|discriminate].
  destruct (redact env _ _ _) as [rr|e] eqn:Hrr; [|discriminate].
  destruct (audit_payload _) as [p|e] eqn:Hp; [|discriminate].
  destruct (result rr) as [rres|] eqn:Hres; [|discriminate]. cbn [assert_some ret] in H.
  destruct (report rres) as [rep|] eqn:Hrep; [|discriminate]. cbn [assert_some ret] in H.
  destruct (annotate env _ _ _ _) as [[t|e] tr1] eqn:Hloop; [|discriminate].
  injection H as <- <- <- <-.
  exists cm, rr, p, rres, rep. by repeat split.
Qed.

(** C4 as stated fails: the text returned for audit display is not the
    serialised raw response of the redaction call. *)
Lemma audit_report_differs_from_raw_response :
  let env := Sample.env (str "Hello") [] (str "benign") in
  (exists r, redact env (str "Hello") [] true
             = Ok {| raw_response := Sample.body (str "Hello"); result := r |})
  /\ match send_chatgpt_message env (str "hi") [] [] [] with
     | (Ok (_, _, raw), _) => raw <> dumps (Some 2%nat) (Sample.body (str "Hello"))
     | _ => False
     end.
Proof. split; [eexists; reflexivity|]. vm_compute. discriminate. Qed.

(** C4 (amended): the last component returned by [send_chatgpt_message]
    is the serialisation, indented by 2, of the raw response of the
    output-redaction call from which the member [summary] and the member
    [redacted_text] of its [result] have been removed. *)
Theorem audit_report_is_pruned_response (env : Env) (message : text)
    (previous_messages : Messages) (redact_rules : list text) (tr tr' : list event)
    (m : ChatMessage) (annotated raw : text) :
  send_chatgpt_message env message previous_messages redact_rules tr
  = (Ok (m, annotated, raw), tr') ->
  exists rr members inner,
    redact env (content m) redact_rules true = Ok rr
    /\ raw_response rr = JObject members
    /\ lookup_key (str "summary") members <> None
    /\ lookup_key (str "result") (remove_key (str "summary") members)
       = Some (JObject inner)
    /\ lookup_key (str "redacted_text") inner <> None
    /\ raw = dumps (Some 2%nat)
               (JObject (update_key (str "result")
                           (JObject (remove_key (str "redacted_text") inner))
                           (remove_key (str "summary") members))).
Proof.
  intros H. apply send_chatgpt_message_inv in H
    as (cm & rr & p & rres & rep & _ & Hrr & Hp & _ & _ & _ & -> & ->).
  apply audit_payload_inv in Hp as (members & inner & Hj & Hsum & Hres & Hred & ->).
  exists rr, members, inner. by repeat split.
Qed.

Lemma audit_report_is_pruned_response_witness :
  let env := Sample.env (str "Hello") [] (str "benign") in
  let m := {| role := str "assistant"; content := str "Hello" |} in
  let audit := JObject [ (str "request_id", JString (str "prq_1"));
                         (str "status", JString (str "Success"));
                         (str "result", JObject [ (str "count", JInt 1) ]) ] in
  exists rr members inner,
    redact env (content m) [] true = Ok rr
    /\ raw_response rr = JObject members
    /\ lookup_key (str "summary") members <> None
    /\ lookup_key (str "result") (remove_key (str "summary") members)
       = Some (JObject inner)
    /\ lookup_key (str "redacted_text") inner <> None
    /\ dumps (Some 2%nat) audit
       = dumps (Some 2%nat)
           (JObject (update_key (str "result")
                       (JObject (remove_key (str "redacted_text") inner))
                       (remove_key (str "summary") members))).
Proof.
  intros env m audit.
  apply (audit_report_is_pruned_response env (str "hi") [] [] []
           [ CompletionCall [{| role := str "user"; content := str "hi" |}]
               (str "gpt-3.5-turbo");
             RedactCall (str "Hello") [] true ]
           m (str "Hello") (dumps (Some 2%nat) audit)).
  vm_compute. reflexivity.
Defined.

(** ** Loading the previous conversation *)

Section store.
Variables (env : Env) (args : Args).

Lemma step_stopped (s : session) (a : action) :
  (forall p, state s <> Running p) -> step env args s a = s.
Proof. intros H. unfold step. destruct (state s); [by destruct (H at_) | done | done]. Qed.

Lemma run_stopped (schedule : list action) (s : session) :
  (forall p, state s <> Running p) -> fold_left (step env args) schedule s = s.
Proof.
  intros H. induction schedule as [|a schedule IH]; [done|].
  cbn [fold_left]. by rewrite step_stopped.
Qed.

(** C8: with an explicit path at which no file exists the load raises,
    and [run_chat] stops there without any call to a service or write;
    with no path and no file at the fallback location the conversation is
    empty; and when the file chosen exists, the result is what
    [json.load] makes of its contents. *)
Theorem load_previous_conversation (fs : gmap string text) :
  (forall f, fs !! f = None ->
     (exists msg, get_previous_text env args fs (Some f) = Raise (ValueError msg))
     /\ (new_conversation args = false -> previous_conversation args = Some f ->
         forall lines schedule,
           let s := run_chat env args fs lines schedule in
           (exists msg, state s = Crashed (ValueError msg))
           /\ trace s = [] /\ writes s = [] /\ files s = fs))
  /\ (fs !! default_file = None -> get_previous_text env args fs None = Ok [])
  /\ (forall file data,
        fs !! match file with Some f => f | None => default_file end = Some data ->
        get_previous_text env args fs file = json_load env data).
Proof.
  split; [|split].
  - intros f Hf. split.
    + unfold get_previous_text. rewrite Hf. eauto.
    + intros Hnew Hprev lines schedule s. subst s.
      unfold run_chat, run_chat_start. rewrite Hnew, Hprev.
      unfold get_previous_text. rewrite Hf, Hprev.
      rewrite run_stopped by (intros p; discriminate). cbn. eauto.
  - intros Hd. unfold get_previous_text. by rewrite Hd.
  - intros [f|] data Hdata; unfold get_previous_text; by rewrite Hdata.
Qed.

End store.

Lemma load_previous_conversation_witness :
  let env := Sample.env (str "Hello") [] (str "benign") in
  let missing := {| previous_conversation := Some "/home/u/talk.json"%string;
                    new_conversation := false;
                    gpt_redact_rules := [];
                    user_input_redact_rules := [] |} in
  let fs : gmap string text := {[ "/srv/saved.json"%string := str "[]" ]} in
  (exists msg, state (run_chat env missing fs [str "hi"] [Step; Step; Signal])
               = Crashed (ValueError msg))
  /\ trace (run_chat env missing fs [str "hi"] [Step; Step; Signal]) = []
  /\ get_previous_text env Sample.args fs None = Ok []
  /\ get_previous_text env Sample.args fs (Some "/srv/saved.json"%string)
     = json_load env (str "[]").
Proof.
  intros env missing fs.
  destruct (load_previous_conversation env missing fs) as (Hmissing & _ & _).
  destruct (load_previous_conversation env Sample.args fs) as (_ & Hnone & Hfile).
  destruct (Hmissing "/home/u/talk.json"%string) as (_ & Hrun); [by vm_compute|].
  destruct (Hrun eq_refl eq_refl [str "hi"] [Step; Step; Signal])
    as (Hstate & Htrace & _ & _).
  split; [exact Hstate|]. split; [exact Htrace|].
  split; [apply Hnone; by vm_compute|].
  apply (Hfile (Some "/srv/saved.json"%string)). by vm_compute.
Defined.


(** ** The terminal session and the signal handler *)

Section terminal.
Variables (env : Env) (args : Args) (fs : gmap string text) (start_ : Messages).

(** With [edited] off the handler exits and writes nothing. *)
Lemma term_handler_not_edited (s : session) :
  edited s = false ->
  state (term_handler env args s) = Exited 0
  /\ files (term_handler env args s) = files s
  /\ writes (term_handler env args s) = writes s.
Proof. intros H. unfold term_handler. by rewrite H. Qed.

(** With [edited] on it replaces the file at the explicit path, or at
    the fallback one, by the whole conversation, and exits. *)
Lemma term_handler_edited (s : session) :
  edited s = true ->
  state (term_handler env args s) = Exited 0
  /\ previous (term_handler env args s) = previous s
  /\ files (term_handler env args s)
     = <[save_path args := json_dump env (previous s)]> (files s)
  /\ writes (term_handler env args s)
     = writes s ++ [(save_path args, json_dump env (previous s))].
Proof. intros H. unfold term_handler, save_path. by rewrite H. Qed.

Lemma after_fields {A} (s : session) (m : M A) (next : A -> point) :
  edited (after s m next) = edited s
  /\ previous (after s m next) = previous s
  /\ writes (after s m next) = writes s
  /\ files (after s m next) = files s
  /\ ((exists a, state (after s m next) = Running (next a))
      \/ exists e, state (after s m next) = Crashed e).
Proof.
  unfold after. destruct (m (trace s)) as [[a|e] tr]; cbn; repeat split; eauto.
Qed.

Lemma step_session_inv (s : session) (a : action) :
  session_inv env args fs start_ s -> session_inv env args fs start_ (step env args s a).
Proof.
  intros (He & Hs). unfold step.
  destruct (state s) as [p| |] eqn:Hst; [|done..].
  unfold saved_once in Hs. rewrite Hst in Hs. destruct Hs as (Hw & Hf).
  destruct a.
  - destruct p as [|c|c g r|c g r|g r]; cbn [main_step].
    + unfold read_line. destruct (stdin s) as [|line rest]; [split; [done|]|].
      { unfold saved_once. by rewrite Hst. }
      assert (Hst' : storing s = false) by (unfold storing; by rewrite Hst).
      destruct (blank line).
      { split; [|unfold saved_once; cbn; by rewrite Hst].
        cbn. unfold storing. cbn. rewrite Hst. intros H. by destruct (He H). }
      match goal with |- session_inv _ _ _ _ (after ?s0 ?m ?n) =>
        destruct (after_fields s0 m n) as (E1 & E2 & E3 & E4 & [[x E5]|[x E5]]) end.
      all: split; [|unfold saved_once; by rewrite E5, E3, E4].
      all: rewrite E1, E2; unfold storing; rewrite E5; cbn.
      all: intros H; by destruct (He H).
    + match goal with |- session_inv _ _ _ _ (after ?s0 ?m ?n) =>
        destruct (after_fields s0 m n) as (E1 & E2 & E3 & E4 & [[x E5]|[x E5]]) end.
      all: split; [|unfold saved_once; by rewrite E5, E3, E4].
      all: rewrite E1, E2; unfold storing; rewrite E5; cbn.
      all: intros H; by destruct (He H).
    + split; [done|]. unfold saved_once. by cbn.
    + split; [|unfold saved_once; by cbn]. cbn. intros H.
      destruct (He H) as (_ & Hsto). unfold storing in Hsto. by rewrite Hst in Hsto.
    + split; [|unfold saved_once; by cbn]. cbn. intros H.
      destruct (He H) as (_ & Hsto). unfold storing in Hsto. by rewrite Hst in Hsto.
  - destruct (edited s) eqn:Hed.
    + destruct (term_handler_edited s Hed) as (E1 & E2 & E3 & E4).
      split.
      * unfold term_handler. rewrite Hed. by cbn.
      * unfold saved_once. rewrite E1, E2, E3, E4, Hw, Hf. right.
        unfold term_handler. rewrite Hed. by cbn.
    + destruct (term_handler_not_edited s Hed) as (E1 & E2 & E3).
      split.
      * unfold term_handler, storing. rewrite Hed. cbn. intros _.
        by destruct (He eq_refl).
      * unfold saved_once. rewrite E1, E2, E3. left.
        unfold term_handler. rewrite Hed. by cbn.
Qed.

Lemma run_session_inv (schedule : list action) (s : session) :
  session_inv env args fs start_ s ->
  session_inv env args fs start_ (fold_left (step env args) schedule s).
Proof.
  revert s. induction schedule as [|a schedule IH]; intros s H; [done|].
  cbn [fold_left]. by apply IH, step_session_inv.
Qed.

End terminal.

(** Whatever the schedule, [run_chat] writes at most once, from the
    handler and with [edited] on, the whole conversation at the save
    path; and with [edited] off the conversation is still the one the
    session started with. *)
Lemma run_chat_saves_only_when_edited (env : Env) (args : Args)
    (fs : gmap string text) (lines : list text) (schedule : list action) :
  let s := run_chat env args fs lines schedule in
  saved_once env args fs s
  /\ (edited s = false -> previous s = previous (run_chat_start env args fs lines)).
Proof.
  intros s. subst s. unfold run_chat.
  destruct (run_session_inv env args fs
              (previous (run_chat_start env args fs lines)) schedule
              (run_chat_start env args fs lines)) as (He & Hs).
  - unfold run_chat_start.
    destruct (if new_conversation args then _ else _) as [msgs|e]; by split.
  - split; [done|]. intros H. by destruct (He H).
Qed.

(** C9, at the failing schedules.  In the first the signal is delivered
    after the assignment of line 122 and before the append of line 123
    of the first turn: the handler finds [edited] on and writes the
    snapshot although the conversation is still the one loaded (here the
    empty one, no file being present at the fallback location).  In the
    second it is delivered between the appends of lines 123 and 124: the
    snapshot written holds the user entry of a turn whose reply is not
    stored. *)
Example signal_between_flag_and_append :
  let env := Sample.env (str "Hello") [] (str "benign") in
  let start_ := run_chat_start env Sample.args ∅ [str "hi"] in
  let s := run_chat env Sample.args ∅ [str "hi"] [Step; Step; Step; Signal] in
  let s' := run_chat env Sample.args ∅ [str "hi"] [Step; Step; Step; Step; Signal] in
  previous start_ = []
  /\ (state s = Exited 0
      /\ previous s = previous start_
      /\ writes s = [(default_file, json_dump env (previous start_))]
      /\ files s !! default_file = Some (str "[]"))
  /\ (state s' = Exited 0
      /\ previous s' = [user_entry (str "hi")]
      /\ writes s' = [(default_file, json_dump env [user_entry (str "hi")])]).
Proof. vm_compute. repeat split. Qed.

(** ** What is stored and what is sent *)

Section sent.
Variables (env : Env) (args : Args).

Lemma lookups_not_completion (content : text) (rs : list RecognizerResult) :
  Forall (fun ev => is_completion ev = false) (map (lookup_of content) rs).
Proof. induction rs as [|r rs IH]; cbn [map]; by constructor. Qed.

(** A call that returns has asked the completion service once, first, for
    the history followed by the message it was given. *)
Lemma send_chatgpt_message_trace (message : text) (previous_messages : Messages)
    (rules : list text) (tr tr' : list event) (out : ChatMessage * text * text) :
  send_chatgpt_message env message previous_messages rules tr = (Ok out, tr') ->
  exists rest,
    tr' = tr ++ CompletionCall
                  (map fst previous_messages
                   ++ [{| role := str "user"; content := message |}])
                  (str "gpt-3.5-turbo") :: rest
    /\ Forall (fun ev => is_completion ev = false) rest.
Proof.
  destruct out as [[m annotated] raw]. intros H.
  apply send_chatgpt_message_inv in H
    as (cm & rr & p & rres & rep & _ & _ & _ & _ & _ & Hloop & _ & _).
  apply annotate_trace in Hloop. subst tr'.
  eexists. rewrite <- !app_assoc. split; [reflexivity|].
  constructor; [done|]. apply lookups_not_completion.
Qed.

(** The session after the five statements of a turn that starts with a
    line that is not blank. *)
Lemma turn_outcome (s : session) (line : text) (lines : list text) :
  state s = Running AtInput -> stdin s = line :: lines -> blank line = false ->
  match redact env line (user_input_redact_rules args) false with
  | Raise e => state (fold_left (step env args) one_turn s) = Crashed e
  | Ok rr =>
      match result rr with
      | None => state (fold_left (step env args) one_turn s) = Crashed AttributeError
      | Some r =>
          match send_chatgpt_message env (redacted_text r) (previous s)
                  (gpt_redact_rules args)
                  (trace s ++ [RedactCall line (user_input_redact_rules args) false])
          with
          | (Raise e, _) => state (fold_left (step env args) one_turn s) = Crashed e
          | (Ok out, tr) =>
              fold_left (step env args) one_turn s
              = {| state := Running AtInput; edited := true;
                   previous := (previous s ++ [user_entry (redacted_text r)])
                               ++ [(out.1.1, out.1.2)];
                   stdin := lines; files := files s; writes := writes s;
                   trace := tr |}
          end
      end
  end.
Proof.
  intros Hst Hin Hblank.
  assert (Hfirst : step env args s Step
    = after {| state := state s; edited := edited s; previous := previous s;
               stdin := lines; files := files s; writes := writes s;
               trace := trace s |}
        (let* response := redact_api env line (user_input_redact_rules args) false in
         let* r := attr_of (result response) in
         ret (redacted_text r))
        Classified).
  { unfold step. rewrite Hst. cbn [main_step]. unfold read_line.
    by rewrite Hin, Hblank. }
  destruct (redact env line _ false) as [rr|e] eqn:Hrr.
  2: { unfold one_turn. cbn [fold_left]. rewrite Hfirst.
       unfold after, bind, redact_api, call. cbn [trace]. by rewrite Hrr. }
  destruct (result rr) as [r|] eqn:Hr.
  2: { unfold one_turn. cbn [fold_left]. rewrite Hfirst.
       unfold after, bind, redact_api, call. cbn [trace]. by rewrite Hrr, Hr. }
  destruct (send_chatgpt_message env _ _ _ _) as [[out|e] tr1] eqn:Hsend.
  all: unfold one_turn; cbn [fold_left]; rewrite Hfirst.
  all: unfold after at 1, bind, redact_api, call; cbn [trace]; rewrite Hrr, Hr.
  all: unfold attr_of, ret; unfold step at 4; cbn [state main_step].
  all: unfold after; cbn [trace previous]; rewrite Hsend; reflexivity.
Qed.

(** C10: in a completed turn of either front end, the user entry appended
    to the conversation holds the text returned by the redaction service
    as its content and as its annotated text, and the one request made to
    the completion service is the history followed by that same text. *)
Theorem redacted_user_text_stored_and_sent :
  (forall previous_ user_message tr reply tr',
     chat env args previous_ user_message tr = (Ok reply, tr') ->
     exists rr r rest,
       redact env user_message (user_input_redact_rules args) true = Ok rr
       /\ result rr = Some r
       /\ user_redacted reply = redacted_text r
       /\ reply_previous reply
          = previous_ ++ [user_entry (redacted_text r);
                          (chat_gpt_message reply, chat_gpt_redacted reply)]
       /\ tr' = tr ++ RedactCall user_message (user_input_redact_rules args) true
                   :: CompletionCall
                        (map fst previous_
                         ++ [{| role := str "user"; content := redacted_text r |}])
                        (str "gpt-3.5-turbo")
                   :: rest
       /\ Forall (fun ev => is_completion ev = false) rest)
  /\ (forall s line lines,
        state s = Running AtInput -> stdin s = line :: lines -> blank line = false ->
        state (fold_left (step env args) one_turn s) = Running AtInput ->
        exists rr r reply rest,
          redact env line (user_input_redact_rules args) false = Ok rr
          /\ result rr = Some r
          /\ previous (fold_left (step env args) one_turn s)
             = previous s ++ [user_entry (redacted_text r); reply]
          /\ trace (fold_left (step env args) one_turn s)
             = trace s
               ++ RedactCall line (user_input_redact_rules args) false
               :: CompletionCall
                    (map fst (previous s)
                     ++ [{| role := str "user"; content := redacted_text r |}])
                    (str "gpt-3.5-turbo")
               :: rest
          /\ Forall (fun ev => is_completion ev = false) rest).
Proof.
  split.
  - intros previous_ user_message tr reply tr' H.
    unfold chat, bind, redact_api, call in H.
    destruct (redact env user_message _ true) as [rr|e] eqn:Hrr; [|discriminate].
    destruct (result rr) as [r|] eqn:Hr; [|discriminate]. cbn [attr_of ret] in H.
    destruct (send_chatgpt_message env _ _ _ _) as [[out|e] tr1] eqn:Hsend; [|discriminate].
    injection H as <- <-. apply send_chatgpt_message_trace in Hsend as (rest & -> & Hrest).
    exists rr, r, rest. cbn. rewrite <- !app_assoc. by repeat split.
  - intros s line lines Hst Hin Hblank Hdone.
    assert (Hturn := turn_outcome s line lines Hst Hin Hblank).
    destruct (redact env line _ false) as [rr|e] eqn:Hrr; [|congruence].
    destruct (result rr) as [r|] eqn:Hr; [|congruence].
    destruct (send_chatgpt_message env _ _ _ _) as [[out|e] tr1] eqn:Hsend; [|congruence].
    apply send_chatgpt_message_trace in Hsend as (rest & -> & Hrest).
    rewrite Hturn. cbn [previous trace].
    exists rr, r, (out.1.1, out.1.2), rest. rewrite <- !app_assoc. by repeat split.
Qed.

End sent.

Lemma redacted_user_text_stored_and_sent_witness :
  let env := Sample.env (str "Hello") [] (str "benign") in
  let s := run_chat_start env Sample.args ∅ [str "call 555 0100"] in
  let s' := fold_left (step env Sample.args) one_turn s in
  exists reply rest,
    previous s' = [user_entry (str "call *** ****"); reply]
    /\ trace s' = RedactCall (str "call 555 0100") (user_input_redact_rules Sample.args) false
                  :: CompletionCall [{| role := str "user"; content := str "call *** ****" |}]
                       (str "gpt-3.5-turbo")
                  :: rest.
Proof.
  intros env s s'.
  destruct (redacted_user_text_stored_and_sent env Sample.args) as (_ & Hturn).
  destruct (Hturn s (str "call 555 0100") []) as (rr & r & reply & rest & Hrr & Hr & Hp & Ht & _).
  - reflexivity.
  - reflexivity.
  - reflexivity.
  - vm_compute. reflexivity.
  - injection Hrr as <-. injection Hr as <-.
    exists reply, rest. split; [exact Hp | exact Ht].
Defined.

(** ** Further properties of the splicer *)

(** X1: a replacement can be undone.  At offsets [0 <= s <= e <= len t],
    putting the original span text back over the replacement restores
    the text. *)
Theorem replace_word_undo (t r : text) (s e : Z) :
  0 <= s <= e -> e <= len t ->
  replace_word (replace_word t r s e) (slice t s e) s (s + len r) = t.
Proof.
  intros Hs He.
  assert (Hl := replace_word_length t r s e Hs He).
  assert (Hr : 0 <= len r) by (unfold len; lia).
  rewrite (replace_word_take_drop _ _ s (s + len r)) by lia.
  rewrite (replace_word_take_drop t r s e) by lia.
  rewrite slice_take_drop by lia.
  unfold len in *.
  assert (Ha : length (take (Z.to_nat s) t) = Z.to_nat s) by (rewrite length_take; lia).
  rewrite take_app_le, take_take, Nat.min_id by lia.
  rewrite drop_app_ge, Ha by lia.
  rewrite drop_app_ge by lia.
  replace (Z.to_nat (s + Z.of_nat (length r)) - Z.to_nat s - length r)%nat with 0%nat by lia.
  rewrite drop_0.
  rewrite <- (take_drop (Z.to_nat s) t) at 4.
  f_equal.
  rewrite <- (take_drop (Z.to_nat e - Z.to_nat s) (drop (Z.to_nat s) t)) at 2.
  f_equal. rewrite drop_drop. f_equal. lia.
Qed.

Lemma replace_word_undo_witness :
  replace_word (replace_word (str "mail a@b.co today") (str "<EMAIL_ADDRESS>") 5 11)
    (str "a@b.co") 5 20
  = str "mail a@b.co today".
Proof.
  apply (replace_word_undo (str "mail a@b.co today") (str "<EMAIL_ADDRESS>") 5 11).
  - lia.
  - vm_compute; discriminate.
Defined.

(** X2: offsets outside the text are clamped, never rejected.  With both
    offsets at or past the end the replacement is appended, with both at
    or before minus the length it is put in front, and an empty
    replacement over an empty span changes nothing wherever the offset
    lies. *)
Theorem replace_word_out_of_range (t r : text) (s e : Z) :
  (len t <= s -> len t <= e -> replace_word t r s e = t ++ r)
  /\ (s <= - len t -> e <= - len t -> replace_word t r s e = r ++ t)
  /\ replace_word t [] s s = t.
Proof.
  unfold replace_word, slice_to, slice_from, bound, len. repeat split.
  - intros Hs He.
    destruct (Z.ltb_spec s 0), (Z.ltb_spec e 0); try lia.
    rewrite take_ge, drop_ge by lia. by rewrite app_nil_r.
  - intros Hs He.
    destruct (Z.ltb_spec s 0), (Z.ltb_spec e 0);
      try (assert (length t = 0%nat) as ->%nil_length_inv by lia; cbn;
           by rewrite ?take_nil, ?drop_nil, ?app_nil_r).
    replace (Z.to_nat (Z.max 0 (s + Z.of_nat (length t)))) with 0%nat by lia.
    replace (Z.to_nat (Z.max 0 (e + Z.of_nat (length t)))) with 0%nat by lia.
    by rewrite take_0, drop_0.
  - cbn [app]. apply take_drop.
Qed.

Lemma replace_word_out_of_range_witness :
  replace_word (str "abc") (str "XY") 7 9 = str "abcXY"
  /\ replace_word (str "abc") (str "XY") (-5) (-4) = str "XYabc".
Proof.
  destruct (replace_word_out_of_range (str "abc") (str "XY") 7 9) as (Hpast & _ & _).
  destruct (replace_word_out_of_range (str "abc") (str "XY") (-5) (-4)) as (_ & Hbefore & _).
  split.
  - apply Hpast; vm_compute; discriminate.
  - apply Hbefore; vm_compute; discriminate.
Defined.

(** ** Further properties of the annotation loop *)

Section loop.
Variable env : Env.
Implicit Types (content t : text) (r : RecognizerResult) (tr : list event).

(** The loop over two reports in a row is the loop over the first
    followed, if it completes, by the loop over the second. *)
Lemma annotate_app content (rs1 rs2 : list RecognizerResult) t tr :
  annotate env content (rs1 ++ rs2) t tr
  = match annotate env content rs1 t tr with
    | (Ok t1, tr1) => annotate env content rs2 t1 tr1
    | (Raise e, tr1) => (Raise e, tr1)
    end.
Proof.
  revert t tr. induction rs1 as [|r rs1 IH]; intros t tr; [done|].
  cbn [app annotate]. unfold bind.
  destruct (annotate_step env content r t tr) as [[t1|e] tr1]; [apply IH | done].
Qed.

(** X3: the entries whose [redacted] flag is off play no part: the loop
    over a report is the loop over its flagged entries. *)
Theorem annotate_ignores_unflagged content (rs : list RecognizerResult) t tr :
  annotate env content rs t tr = annotate env content (List.filter redacted rs) t tr.
Proof.
  revert t tr. induction rs as [|r rs IH]; intros t tr; [done|].
  cbn [List.filter]. destruct (redacted r) eqn:Hred.
  - cbn [annotate]. unfold bind.
    destruct (annotate_step env content r t tr) as [[t1|e] tr1]; [apply IH | done].
  - cbn [annotate]. unfold bind.
    rewrite annotate_step_not_redacted by done. apply IH.
Qed.

(** X4: a URL is masked by a [malicious] verdict only.  When every
    flagged entry is tagged URL and no lookup answers [malicious], the
    loop completes with the text unchanged, having made one lookup per
    flagged entry. *)
Theorem no_malicious_verdict_keeps_text content (rs : list RecognizerResult) t tr :
  Forall (fun r => redacted r = true ->
            field_type r = str "URL"
            /\ exists verdict,
                 reputation env (url_of content r) (str "crowdstrike") = Ok verdict
                 /\ verdict <> str "malicious") rs ->
  annotate env content rs t tr
  = (Ok t, tr ++ map (lookup_of content) (List.filter consulted rs)).
Proof.
  intros H. revert tr. induction H as [|r rs Hr _ IH]; intros tr.
  - cbn. by rewrite app_nil_r.
  - cbn [annotate List.filter]. unfold bind, consulted at 1.
    destruct (redacted r) eqn:Hred.
    + destruct (Hr eq_refl) as (Hft & verdict & Hv & Hne).
      rewrite annotate_step_consulted, Hv by done.
      unfold str_eq at 1. rewrite bool_decide_false by done.
      rewrite IH, Hft, str_eq_refl. cbn [andb map]. by rewrite <- app_assoc.
    + rewrite annotate_step_not_redacted by done. by rewrite IH.
Qed.

Lemma annotate_step_keeps_prefix content r t tr t' tr' (n : Z) :
  annotate_step env content r t tr = (Ok t', tr') ->
  0 <= n <= len t -> n <= start r ->
  take (Z.to_nat n) t' = take (Z.to_nat n) t /\ n <= len t'.
Proof.
  intros Hstep Hn Hs.
  assert (Hsplice : forall R,
    take (Z.to_nat n) (replace_word t R (start r) (end_ r)) = take (Z.to_nat n) t
    /\ n <= len (replace_word t R (start r) (end_ r))).
  { intros R. unfold replace_word, slice_to, len in *.
    assert (Z.to_nat n <= bound (length t) (start r))%nat
      by (unfold bound; destruct (Z.ltb_spec (start r) 0); lia).
    assert (Hb := bound_le (length t) (start r)).
    split.
    - rewrite take_app_le by (rewrite length_take; lia).
      rewrite take_take. f_equal. lia.
    - rewrite length_app, length_take. lia. }
  destruct (redacted r) eqn:Hred.
  - destruct (decide (field_type r = str "URL")) as [Hft|Hft].
    + rewrite annotate_step_consulted in Hstep by done.
      destruct (reputation env _ _) as [verdict|e]; [|done].
      destruct (str_eq verdict _); injection Hstep as <- _;
        [apply Hsplice | split; [done | lia]].
    + rewrite annotate_step_tag in Hstep by done. injection Hstep as <- _.
      apply Hsplice.
  - rewrite annotate_step_not_redacted in Hstep by done. injection Hstep as <- _.
    split; [done | lia].
Qed.

(** X5: the text in front of every span is never altered.  If no entry
    starts before offset [n], with [0 <= n <= len t], the annotated text
    and the text the loop started from agree on their first [n]
    characters. *)
Theorem annotate_keeps_prefix content (rs : list RecognizerResult) t tr t' tr' (n : Z) :
  annotate env content rs t tr = (Ok t', tr') ->
  0 <= n <= len t -> Forall (fun r => n <= start r) rs ->
  take (Z.to_nat n) t' = take (Z.to_nat n) t.
Proof.
  intros Hloop Hn Hall. revert t tr Hloop Hn.
  induction Hall as [|r rs Hr _ IH]; intros t tr Hloop Hn.
  - cbn in Hloop. by injection Hloop as <- _.
  - cbn [annotate] in Hloop. unfold bind in Hloop.
    destruct (annotate_step env content r t tr) as [[t1|e] tr1] eqn:Hstep; [|done].
    destruct (annotate_step_keeps_prefix _ _ _ _ _ _ n Hstep Hn Hr) as (Heq & Hlen).
    rewrite <- Heq. apply (IH t1 tr1 Hloop). lia.
Qed.

(** X6: a lookup that fails ends the loop there.  The error is the
    loop's result, the entries after it are not looked up, and no
    annotated text is returned. *)
Theorem failed_lookup_aborts content (rs1 rs2 : list RecognizerResult) r t tr t1 tr1
    (e : exn) :
  annotate env content rs1 t tr = (Ok t1, tr1) ->
  consulted r = true ->
  reputation env (url_of content r) (str "crowdstrike") = Raise e ->
  annotate env content (rs1 ++ r :: rs2) t tr = (Raise e, tr1 ++ [lookup_of content r]).
Proof.
  intros H1 Hc He. rewrite annotate_app, H1. cbn [annotate]. unfold bind.
  unfold consulted in Hc. apply andb_prop in Hc as (Hred & Hft).
  apply str_eq_true in Hft.
  rewrite annotate_step_consulted by done. by rewrite He.
Qed.

End loop.

Lemma no_malicious_verdict_keeps_text_witness :
  let env := Sample.env (str "ok") [] (str "benign") in
  let content := str "see http://t.co now" in
  let rs := [Sample.span (str "URL") 4 15 true; Sample.span (str "PERSON") 0 3 false] in
  annotate env content rs content []
  = (Ok content, [ReputationCall (str "t.co") (str "crowdstrike")]).
Proof.
  intros env content rs.
  apply (no_malicious_verdict_keeps_text env content rs content []).
  constructor; [|constructor; [|constructor]].
  - intros _. split; [reflexivity|]. exists (str "benign").
    split; [reflexivity | vm_compute; discriminate].
  - intros H. vm_compute in H. discriminate.
Defined.

Lemma annotate_keeps_prefix_witness :
  let content := str "mail a@b.co or see http://t.co now" in
  take 5 (str "mail <EMAIL_ADDRESS<MALICIOUS_URL>tp://t.co now") = take 5 content.
Proof.
  intros content.
  apply (annotate_keeps_prefix (Sample.env (str "ok") [] (str "malicious")) content
           [Sample.span (str "EMAIL_ADDRESS") 5 11 true; Sample.span (str "URL") 19 30 true]
           content [] _ [ReputationCall (str "t.co") (str "crowdstrike")] 5).
  - vm_compute. reflexivity.
  - vm_compute. split; discriminate.
  - repeat constructor; vm_compute; discriminate.
Defined.

Lemma failed_lookup_aborts_witness :
  let env := Faulty.env Faulty.NoReputation (str "ok") [] in
  let content := str "mail a@b.co or see http://t.co now" in
  let mail := Sample.span (str "EMAIL_ADDRESS") 5 11 true in
  let url := Sample.span (str "URL") 19 30 true in
  annotate env content ([mail] ++ url :: [mail]) content []
  = (Raise (Faulty.down "domain-intel"),
     [] ++ [ReputationCall (str "t.co") (str "crowdstrike")]).
Proof.
  intros env content mail url.
  apply (failed_lookup_aborts env content [mail] [mail] url content []
           (str "mail <EMAIL_ADDRESS> or see http://t.co now") []).
  - vm_compute. reflexivity.
  - vm_compute. reflexivity.
  - reflexivity.
Defined.

(** ** How a call of [send_chatgpt_message] fails *)

Lemma audit_payload_missing_member (members : list (text * json)) :
  (lookup_key (str "summary") members = None ->
   audit_payload (JObject members) = Raise (KeyError (str "summary")))
  /\ (lookup_key (str "summary") members <> None ->
      lookup_key (str "result") members = None ->
      audit_payload (JObject members) = Raise (KeyError (str "result")))
  /\ (forall inner,
        lookup_key (str "summary") members <> None ->
        lookup_key (str "result") members = Some (JObject inner) ->
        lookup_key (str "redacted_text") inner = None ->
        audit_payload (JObject members) = Raise (KeyError (str "redacted_text"))).
Proof.
  assert (Hne : str "result" <> str "summary") by (vm_compute; discriminate).
  unfold audit_payload, pop, getitem. repeat split.
  - by intros ->.
  - intros Hs Hr. destruct (lookup_key (str "summary") members); [|done].
    by rewrite lookup_remove_key_ne, Hr.
  - intros inner Hs Hr Hi. destruct (lookup_key (str "summary") members); [|done].
    by rewrite lookup_remove_key_ne, Hr, Hi.
Qed.

(** X7: every failure before the loop ends the call with that error and
    without a reputation lookup, the calls already made staying in the
    trace: a completion service that fails (the redaction service is then
    not called), a redaction service that fails, a response body from
    which [summary], [result] or [redacted_text] cannot be popped, and a
    redaction answer without result or without report
    ([AssertionError]). *)
Theorem send_chatgpt_message_failures (env : Env) (message : text)
    (previous_messages : Messages) (redact_rules : list text) (tr : list event) :
  let request :=
    map fst previous_messages ++ [{| role := str "user"; content := message |}] in
  let asked := tr ++ [CompletionCall request (str "gpt-3.5-turbo")] in
  (forall e, chat_completion env request (str "gpt-3.5-turbo") = Raise e ->
     send_chatgpt_message env message previous_messages redact_rules tr
     = (Raise e, asked))
  /\ (forall cm, chat_completion env request (str "gpt-3.5-turbo") = Ok cm ->
      let classified := asked ++ [RedactCall (content cm) redact_rules true] in
      (forall e, redact env (content cm) redact_rules true = Raise e ->
         send_chatgpt_message env message previous_messages redact_rules tr
         = (Raise e, classified))
      /\ (forall rr, redact env (content cm) redact_rules true = Ok rr ->
          (forall e, audit_payload (raw_response rr) = Raise e ->
             send_chatgpt_message env message previous_messages redact_rules tr
             = (Raise e, classified))
          /\ (forall p, audit_payload (raw_response rr) = Ok p ->
              result rr = None
              \/ (exists rres, result rr = Some rres /\ report rres = None) ->
              send_chatgpt_message env message previous_messages redact_rules tr
              = (Raise AssertionError, classified)))).
Proof.
  intros request asked. subst request asked.
  unfold send_chatgpt_message, bind, openai_create, redact_api, call, lift.
  split; [by intros e ->|].
  intros cm ->.
  split; [by intros e ->|].
  intros rr ->. split; [by intros e ->|].
  intros p -> [Hnone | (rres & Hres & Hrep)].
  - by rewrite Hnone.
  - rewrite Hres. cbn [assert_some ret]. by rewrite Hrep.
Qed.

Lemma send_chatgpt_message_failures_witness :
  send_chatgpt_message (Faulty.env Faulty.NoCompletion (str "ok") []) (str "hi") [] [] []
  = (Raise (Faulty.down "completion"),
     [] ++ [CompletionCall ([] ++ [{| role := str "user"; content := str "hi" |}])
              (str "gpt-3.5-turbo")])
  /\ send_chatgpt_message (Faulty.env Faulty.NoSummary (str "ok") []) (str "hi") [] [] []
     = (Raise (KeyError (str "summary")),
        ([] ++ [CompletionCall ([] ++ [{| role := str "user"; content := str "hi" |}])
                  (str "gpt-3.5-turbo")])
        ++ [RedactCall (str "ok") [] true])
  /\ send_chatgpt_message (Faulty.env Faulty.NoReport (str "ok") []) (str "hi") [] [] []
     = (Raise AssertionError,
        ([] ++ [CompletionCall ([] ++ [{| role := str "user"; content := str "hi" |}])
                  (str "gpt-3.5-turbo")])
        ++ [RedactCall (str "ok") [] true]).
Proof.
  split; [|split].
  - destruct (send_chatgpt_message_failures (Faulty.env Faulty.NoCompletion (str "ok") [])
                (str "hi") [] [] []) as (Hdown & _).
    by apply Hdown.
  - destruct (send_chatgpt_message_failures (Faulty.env Faulty.NoSummary (str "ok") [])
                (str "hi") [] [] []) as (_ & Hup).
    destruct (Hup {| role := str "assistant"; content := str "ok" |} eq_refl)
      as (_ & Hbody).
    destruct (Hbody _ eq_refl) as (Hpop & _).
    apply Hpop. by apply audit_payload_missing_member.
  - destruct (send_chatgpt_message_failures (Faulty.env Faulty.NoReport (str "ok") [])
                (str "hi") [] [] []) as (_ & Hup).
    destruct (Hup {| role := str "assistant"; content := str "ok" |} eq_refl)
      as (_ & Hbody).
    destruct (Hbody _ eq_refl) as (_ & Hassert).
    eapply Hassert; [by vm_compute|]. right. by eexists.
Defined.

(** ** What the audit report holds *)

Lemma lookup_key_None (k : text) (members : list (text * json)) :
  k ∉ map fst members -> lookup_key k members = None.
Proof.
  induction members as [|[k0 v] members IH]; [done|]. cbn [map fst lookup_key].
  intros Hnot. apply not_elem_of_cons in Hnot as (Hne & Hnot).
  unfold str_eq. rewrite bool_decide_false by done. by apply IH.
Qed.

Lemma lookup_remove_key_eq (k : text) (members : list (text * json)) :
  NoDup (map fst members) -> lookup_key k (remove_key k members) = None.
Proof.
  induction members as [|[k0 v] members IH]; [done|]. cbn [map fst remove_key].
  intros Hnd. apply NoDup_cons in Hnd as (Hnot & Hnd).
  unfold str_eq. destruct (decide (k = k0)) as [->|Hne].
  - rewrite bool_decide_true by done. by apply lookup_key_None.
  - rewrite bool_decide_false by done. cbn [lookup_key]. unfold str_eq.
    rewrite bool_decide_false by done. by apply IH.
Qed.

Lemma lookup_update_key_eq (k : text) (v : json) (members : list (text * json)) :
  lookup_key k members <> None -> lookup_key k (update_key k v members) = Some v.
Proof.
  induction members as [|[k0 v0] members IH]; [done|]. cbn [lookup_key update_key].
  unfold str_eq. destruct (decide (k = k0)) as [->|Hne].
  - rewrite !bool_decide_true by done. cbn [lookup_key]. unfold str_eq.
    by rewrite bool_decide_true.
  - rewrite !bool_decide_false by done. cbn [lookup_key]. unfold str_eq.
    by rewrite bool_decide_false.
Qed.

Lemma remove_key_keys (k : text) (members : list (text * json)) :
  forall k', k' ∈ map fst (remove_key k members) -> k' ∈ map fst members.
Proof.
  induction members as [|[k0 v] members IH]; [done|]. cbn [map fst remove_key].
  intros k'. unfold str_eq. case_bool_decide.
  - intros H'. by apply elem_of_cons; right.
  - cbn [map fst]. rewrite !elem_of_cons. intros [->|H']; [by left | right; by apply IH].
Qed.

Lemma remove_key_NoDup (k : text) (members : list (text * json)) :
  NoDup (map fst members) -> NoDup (map fst (remove_key k members)).
Proof.
  induction members as [|[k0 v] members IH]; [done|]. cbn [map fst remove_key].
  intros Hnd. apply NoDup_cons in Hnd as (Hnot & Hnd).
  unfold str_eq. case_bool_decide; [done|].
  cbn [map fst]. apply NoDup_cons. split; [|by apply IH].
  intros Hin. by apply Hnot, (remove_key_keys k).
Qed.

(** X8: the audit report of a response body whose members, and whose
    result's members, have distinct keys: it has no [summary], its
    [result] is the body's without [redacted_text] and otherwise the
    same, and every other member is the body's. *)
Theorem audit_report_members (members : list (text * json)) (p : json) :
  audit_payload (JObject members) = Ok p ->
  NoDup (map fst members) ->
  getitem (str "summary") p = Raise (KeyError (str "summary"))
  /\ (forall k, k <> str "summary" -> k <> str "result" ->
        getitem k p = getitem k (JObject members))
  /\ exists inner,
       getitem (str "result") (JObject members) = Ok (JObject inner)
       /\ getitem (str "result") p
          = Ok (JObject (remove_key (str "redacted_text") inner))
       /\ (forall k, k <> str "redacted_text" ->
             lookup_key k (remove_key (str "redacted_text") inner) = lookup_key k inner)
       /\ (NoDup (map fst inner) ->
           lookup_key (str "redacted_text") (remove_key (str "redacted_text") inner)
           = None).
Proof.
  intros Hp Hnd.
  assert (Hne : str "result" <> str "summary") by (vm_compute; discriminate).
  apply audit_payload_inv in Hp as (members' & inner & Hj & Hsum & Hres & Hred & ->).
  injection Hj as <-. rewrite lookup_remove_key_ne in Hres by done.
  unfold getitem. repeat split.
  - rewrite lookup_update_key_ne by (intros H; by apply Hne).
    by rewrite lookup_remove_key_eq.
  - intros k Hk1 Hk2.
    by rewrite lookup_update_key_ne, lookup_remove_key_ne.
  - exists inner. rewrite Hres. repeat split.
    + rewrite lookup_update_key_eq; [done|].
      rewrite lookup_remove_key_ne by done. by rewrite Hres.
    + intros k Hk. by apply lookup_remove_key_ne.
    + apply lookup_remove_key_eq.
Qed.

Lemma audit_report_members_witness :
  exists p,
    audit_payload (Sample.body (str "Hello")) = Ok p
    /\ getitem (str "summary") p = Raise (KeyError (str "summary"))
    /\ getitem (str "status") p = Ok (JString (str "Success"))
    /\ getitem (str "result") p = Ok (JObject [(str "count", JInt 1)]).
Proof.
  eexists. split; [reflexivity|].
  match goal with |- getitem _ ?p = _ /\ _ =>
    destruct (audit_report_members
                [ (str "request_id", JString (str "prq_1"));
                  (str "summary", JString (str "Success. Redacted 1 item(s) from text"));
                  (str "status", JString (str "Success"));
                  (str "result", JObject [ (str "redacted_text", JString (str "Hello"));
                                           (str "count", JInt 1) ]) ] p)
      as (Hsum & Hother & inner & Hin & Hres & _)
  end.
  - reflexivity.
  - apply (bool_decide_unpack _). vm_compute. exact I.
  - split; [exact Hsum|]. split.
    + rewrite Hother by (vm_compute; discriminate). reflexivity.
    + rewrite Hres. injection Hin as <-. reflexivity.
Defined.

(** ** The HTTP reply and the order of the calls *)

(** X9: in the body returned by [chat], the report on the user text is
    the serialised raw response of the input-redaction call as it came,
    while the report on the reply is the serialised audit payload of the
    output-redaction call; the message returned has the role
    [assistant], and the conversation returned is the one received
    followed by two entries. *)
Theorem chat_reply_fields (env : Env) (args : Args) (previous_ : Messages)
    (user_message : text) (tr tr' : list event) (reply : ChatReply) :
  chat env args previous_ user_message tr = (Ok reply, tr') ->
  exists rr rg p,
    redact env user_message (user_input_redact_rules args) true = Ok rr
    /\ raw_redact_user_text reply = dumps (Some 2%nat) (raw_response rr)
    /\ redact env (content (chat_gpt_message reply)) (gpt_redact_rules args) true = Ok rg
    /\ audit_payload (raw_response rg) = Ok p
    /\ raw_redact_gpt_text reply = dumps (Some 2%nat) p
    /\ role (chat_gpt_message reply) = str "assistant"
    /\ take (length previous_) (reply_previous reply) = previous_
    /\ length (reply_previous reply) = (length previous_ + 2)%nat.
Proof.
  intros H. unfold chat, bind, redact_api, call in H.
  destruct (redact env user_message _ true) as [rr|e] eqn:Hrr; [|discriminate].
  destruct (result rr) as [r|] eqn:Hr; [|discriminate]. cbn [attr_of ret] in H.
  destruct (send_chatgpt_message env _ _ _ _) as [[[[m annotated] raw]|e] tr1] eqn:Hsend;
    [|discriminate].
  injection H as <- <-.
  apply send_chatgpt_message_inv in Hsend
    as (cm & rg & p & rres & rep & _ & Hrg & Hp & _ & _ & _ & -> & ->).
  exists rr, rg, p. cbn. repeat split; try done.
  - rewrite <- app_assoc. by rewrite take_app_length.
  - rewrite !length_app. cbn. lia.
Qed.

Lemma chat_reply_fields_witness :
  exists reply tr',
    chat (Sample.env (str "Hello") [] (str "benign")) Sample.args [] (str "call 555") []
    = (Ok reply, tr')
    /\ raw_redact_user_text reply = dumps (Some 2%nat) (Sample.body (str "call ***"))
    /\ role (chat_gpt_message reply) = str "assistant"
    /\ length (reply_previous reply) = 2%nat.
Proof.
  assert (Hrun : exists reply tr',
    chat (Sample.env (str "Hello") [] (str "benign")) Sample.args [] (str "call 555") []
    = (Ok reply, tr')) by (do 2 eexists; vm_compute; reflexivity).
  destruct Hrun as (reply & tr' & Hrun). exists reply, tr'. split; [exact Hrun|].
  destruct (chat_reply_fields _ _ _ _ _ _ _ Hrun)
    as (rr & rg & p & Hrr & Huser & _ & _ & _ & Hrole & _ & Hlen).
  injection Hrr as <-. by repeat split.
Defined.

(** X10: no redaction, no completion.  When the redaction of the user
    text fails or comes without a result, [chat] raises and the terminal
    session crashes with the redaction call as the only call made: the
    completion service is not asked, and in the terminal session nothing
    is stored or written. *)
Theorem no_completion_without_redaction (env : Env) (args : Args) :
  (forall previous_ user_message tr,
     (forall rr, redact env user_message (user_input_redact_rules args) true = Ok rr ->
                 result rr = None) ->
     exists e,
       chat env args previous_ user_message tr
       = (Raise e, tr ++ [RedactCall user_message (user_input_redact_rules args) true]))
  /\ (forall s line lines schedule,
        state s = Running AtInput -> stdin s = line :: lines -> blank line = false ->
        (forall rr, redact env line (user_input_redact_rules args) false = Ok rr ->
                    result rr = None) ->
        (exists e, state (fold_left (step env args) (Step :: schedule) s) = Crashed e)
        /\ trace (fold_left (step env args) (Step :: schedule) s)
           = trace s ++ [RedactCall line (user_input_redact_rules args) false]
        /\ previous (fold_left (step env args) (Step :: schedule) s) = previous s
        /\ writes (fold_left (step env args) (Step :: schedule) s) = writes s).
Proof.
  split.
  - intros previous_ user_message tr Hno.
    unfold chat, bind, redact_api, call.
    destruct (redact env user_message _ true) as [rr|e]; [|by eexists].
    rewrite (Hno rr eq_refl). by eexists.
  - intros s line lines schedule Hst Hin Hblank Hno. cbn [fold_left].
    assert (Hfirst : exists e,
      step env args s Step
      = {| state := Crashed e; edited := edited s; previous := previous s;
           stdin := lines; files := files s; writes := writes s;
           trace := trace s ++ [RedactCall line (user_input_redact_rules args) false] |}).
    { unfold step. rewrite Hst. cbn [main_step]. unfold read_line.
      rewrite Hin, Hblank. unfold after, bind, redact_api, call. cbn [trace].
      destruct (redact env line _ false) as [rr|e]; [|by eexists].
      rewrite (Hno rr eq_refl). by eexists. }
    destruct Hfirst as (e & ->).
    rewrite run_stopped by (intros p; discriminate). cbn. eauto.
Qed.

Lemma no_completion_without_redaction_witness :
  let env := Faulty.env Faulty.NoRedaction (str "Hello") [] in
  (exists e, chat env Sample.args [] (str "call 555") []
             = (Raise e, [] ++ [RedactCall (str "call 555")
                                  (user_input_redact_rules Sample.args) true]))
  /\ trace (run_chat env Sample.args ∅ [str "call 555"] [Step; Step; Step])
     = [] ++ [RedactCall (str "call 555") (user_input_redact_rules Sample.args) false].
Proof.
  intros env.
  destruct (no_completion_without_redaction env Sample.args) as (Hchat & Hterm).
  split.
  - apply Hchat. intros rr H. discriminate.
  - destruct (Hterm (run_chat_start env Sample.args ∅ [str "call 555"])
                (str "call 555") [] [Step; Step]) as (_ & Htrace & _).
    + reflexivity.
    + reflexivity.
    + reflexivity.
    + intros rr H. discriminate.
    + exact Htrace.
Defined.

(** ** Further properties of the terminal session *)

Section session_facts.
Variables (env : Env) (args : Args).

(** X11: blank lines are asked for again.  Whitespace-only lines at the
    prompt are read one per statement and change nothing else: no call is
    made, nothing is stored, and the session waits at the prompt with the
    lines that follow. *)
Theorem blank_lines_are_skipped (blanks rest : list text) (s : session) :
  state s = Running AtInput -> stdin s = blanks ++ rest ->
  Forall (fun line => blank line = true) blanks ->
  fold_left (step env args) (repeat Step (length blanks)) s
  = {| state := Running AtInput; edited := edited s; previous := previous s;
       stdin := rest; files := files s; writes := writes s; trace := trace s |}.
Proof.
  intros Hst Hin Hall. revert s Hst Hin.
  induction Hall as [|line blanks Hline _ IH]; intros s Hst Hin.
  - cbn. destruct s; cbn in *. by subst.
  - cbn [length repeat fold_left].
    assert (Hstep : step env args s Step
      = {| state := Running AtInput; edited := edited s; previous := previous s;
           stdin := blanks ++ rest; files := files s; writes := writes s;
           trace := trace s |}).
    { unfold step. rewrite Hst. cbn [main_step]. unfold read_line.
      rewrite Hin. cbn [app]. rewrite Hline. by rewrite Hst. }
    rewrite Hstep. by rewrite IH.
Qed.

(** The session after a turn, in every case. *)
Lemma turn_result (s : session) (line : text) (lines : list text) :
  state s = Running AtInput -> stdin s = line :: lines -> blank line = false ->
  (exists reply tr,
     fold_left (step env args) one_turn s
     = {| state := Running AtInput; edited := true;
          previous := previous s ++ reply;
          stdin := lines; files := files s; writes := writes s; trace := tr |})
  \/ (exists e tr,
        fold_left (step env args) one_turn s
        = {| state := Crashed e; edited := edited s; previous := previous s;
             stdin := lines; files := files s; writes := writes s; trace := tr |}).
Proof.
  intros Hst Hin Hblank.
  assert (Hfirst : step env args s Step
    = after {| state := state s; edited := edited s; previous := previous s;
               stdin := lines; files := files s; writes := writes s;
               trace := trace s |}
        (let* response := redact_api env line (user_input_redact_rules args) false in
         let* r := attr_of (result response) in
         ret (redacted_text r))
        Classified).
  { unfold step. rewrite Hst. cbn [main_step]. unfold read_line.
    by rewrite Hin, Hblank. }
  destruct (redact env line (user_input_redact_rules args) false) as [rr|e] eqn:Hrr.
  2: { right. do 2 eexists. unfold one_turn. cbn [fold_left]. rewrite Hfirst.
       unfold after, bind, redact_api, call. cbn [trace]. rewrite Hrr. reflexivity. }
  destruct (result rr) as [r|] eqn:Hr.
  2: { right. do 2 eexists. unfold one_turn. cbn [fold_left]. rewrite Hfirst.
       unfold after, bind, redact_api, call. cbn [trace]. rewrite Hrr, Hr. reflexivity. }
  destruct (send_chatgpt_message env (redacted_text r) (previous s) (gpt_redact_rules args)
              (trace s ++ [RedactCall line (user_input_redact_rules args) false]))
    as [[out|e] tr1] eqn:Hsend.
  - left. exists [user_entry (redacted_text r); (out.1.1, out.1.2)], tr1.
    assert (Hturn := turn_outcome env args s line lines Hst Hin Hblank).
    rewrite Hrr, Hr, Hsend in Hturn. rewrite Hturn. by rewrite <- app_assoc.
  - right. do 2 eexists. unfold one_turn. cbn [fold_left]. rewrite Hfirst.
    unfold after at 1, bind, redact_api, call. cbn [trace]. rewrite Hrr, Hr.
    unfold attr_of, ret. unfold step at 4. cbn [state main_step].
    unfold after. cbn [trace previous]. rewrite Hsend. reflexivity.
Qed.

(** X12: a turn in which a service fails leaves no mark.  If the session
    has crashed after the five statements of a turn, the conversation,
    the [edited] flag and the file system are as they were before it. *)
Theorem failed_turn_leaves_conversation (s : session) (line : text) (lines : list text)
    (e : exn) :
  state s = Running AtInput -> stdin s = line :: lines -> blank line = false ->
  state (fold_left (step env args) one_turn s) = Crashed e ->
  previous (fold_left (step env args) one_turn s) = previous s
  /\ edited (fold_left (step env args) one_turn s) = edited s
  /\ files (fold_left (step env args) one_turn s) = files s
  /\ writes (fold_left (step env args) one_turn s) = writes s.
Proof.
  intros Hst Hin Hblank Hcrash.
  destruct (turn_result s line lines Hst Hin Hblank)
    as [(reply & tr & Heq) | (e' & tr & Heq)]; rewrite Heq in *; [done|].
  by cbn.
Qed.

(** X13: a completed turn is what a signal then saves.  After the five
    statements of a turn whose calls succeed and a signal, the process
    has exited with status 0 and the file at the save path holds the
    conversation followed by the user entry and the reply. *)
Theorem completed_turn_is_saved (s : session) (line : text) (lines : list text)
    (rr : RedactResponse) (r : RedactResult) (out : ChatMessage * text * text)
    (tr : list event) :
  state s = Running AtInput -> stdin s = line :: lines -> blank line = false ->
  redact env line (user_input_redact_rules args) false = Ok rr ->
  result rr = Some r ->
  send_chatgpt_message env (redacted_text r) (previous s) (gpt_redact_rules args)
    (trace s ++ [RedactCall line (user_input_redact_rules args) false])
  = (Ok out, tr) ->
  let saved := previous s ++ [user_entry (redacted_text r); (out.1.1, out.1.2)] in
  let s' := fold_left (step env args) (one_turn ++ [Signal]) s in
  state s' = Exited 0
  /\ previous s' = saved
  /\ files s' = <[save_path args := json_dump env saved]> (files s)
  /\ writes s' = writes s ++ [(save_path args, json_dump env saved)].
Proof.
  intros Hst Hin Hblank Hrr Hr Hsend saved s'. subst saved s'.
  rewrite fold_left_app.
  assert (Hturn := turn_outcome env args s line lines Hst Hin Hblank).
  rewrite Hrr, Hr, Hsend in Hturn. rewrite Hturn. cbn [fold_left].
  unfold step. cbn [state].
  match goal with |- context [term_handler env args ?s0] =>
    destruct (term_handler_edited env args s0 eq_refl) as (E1 & E2 & E3 & E4) end.
  rewrite E1, E2, E3, E4. cbn. by rewrite <- !app_assoc.
Qed.

(** X14: what the handler saves is what the next session loads.  For a
    conversation that [json.load] reads back from what [json.dump] wrote,
    a session started without [--new-conversation] on the files left by
    the handler begins with the conversation the handler saved. *)
Theorem saved_conversation_is_loaded (s : session) (lines : list text) :
  edited s = true -> new_conversation args = false ->
  json_load env (json_dump env (previous s)) = Ok (previous s) ->
  let next := run_chat_start env args (files (term_handler env args s)) lines in
  state next = Running AtInput /\ previous next = previous s /\ edited next = false.
Proof.
  intros Hed Hnew Hcodec next. subst next.
  destruct (term_handler_edited env args s Hed) as (_ & _ & Hfiles & _).
  unfold run_chat_start. rewrite Hnew, Hfiles.
  unfold get_previous_text, save_path.
  destruct (previous_conversation args) as [path|];
    rewrite lookup_insert_eq, Hcodec; done.
Qed.

End session_facts.

Lemma blank_lines_are_skipped_witness :
  let env := Sample.env (str "Hello") [] (str "benign") in
  let s := run_chat_start env Sample.args ∅ [str "  "; str ""; str "hi"] in
  fold_left (step env Sample.args) [Step; Step] s
  = {| state := Running AtInput; edited := false; previous := [];
       stdin := [str "hi"]; files := ∅; writes := []; trace := [] |}.
Proof.
  intros env s.
  apply (blank_lines_are_skipped env Sample.args [str "  "; str ""] [str "hi"] s).
  - reflexivity.
  - reflexivity.
  - constructor; [reflexivity|]. constructor; [reflexivity|]. constructor.
Defined.

Lemma failed_turn_leaves_conversation_witness :
  let env := Faulty.env Faulty.NoCompletion (str "Hello") [] in
  let s := run_chat_start env Sample.args ∅ [str "hi"] in
  previous (fold_left (step env Sample.args) one_turn s) = []
  /\ edited (fold_left (step env Sample.args) one_turn s) = false
  /\ files (fold_left (step env Sample.args) one_turn s) = ∅
  /\ writes (fold_left (step env Sample.args) one_turn s) = [].
Proof.
  intros env s.
  apply (failed_turn_leaves_conversation env Sample.args s (str "hi") []
           (Faulty.down "completion")); reflexivity.
Defined.

Lemma completed_turn_is_saved_witness :
  let env := Sample.env (str "Hello") [] (str "benign") in
  let s := run_chat_start env Sample.args ∅ [str "call 555"] in
  let saved := [ user_entry (str "call ***");
                 ({| role := str "assistant"; content := str "Hello" |}, str "Hello") ] in
  let s' := fold_left (step env Sample.args) (one_turn ++ [Signal]) s in
  state s' = Exited 0
  /\ previous s' = saved
  /\ files s' = <[default_file := json_dump env saved]> ∅
  /\ writes s' = [(default_file, json_dump env saved)].
Proof.
  intros env s saved s'.
  apply (completed_turn_is_saved env Sample.args s (str "call 555") []
           {| raw_response := Sample.body (str "call ***");
              result := Some {| redacted_text := str "call ***"; report := None |} |}
           {| redacted_text := str "call ***"; report := None |}
           ({| role := str "assistant"; content := str "Hello" |}, str "Hello",
            dumps (Some 2%nat)
              (JObject [ (str "request_id", JString (str "prq_1"));
                         (str "status", JString (str "Success"));
                         (str "result", JObject [ (str "count", JInt 1) ]) ]))
           [ RedactCall (str "call 555") (user_input_redact_rules Sample.args) false;
             CompletionCall [{| role := str "user"; content := str "call ***" |}]
               (str "gpt-3.5-turbo");
             RedactCall (str "Hello") [] true ]).
  - reflexivity.
  - reflexivity.
  - reflexivity.
  - reflexivity.
  - reflexivity.
  - vm_compute. reflexivity.
Defined.

Lemma saved_conversation_is_loaded_witness :
  let conv := [ user_entry (str "call ***");
                ({| role := str "assistant"; content := str "Hello" |}, str "Hello") ] in
  let env := remembering conv in
  let s := fold_left (step env Sample.args) one_turn
             (run_chat_start env Sample.args ∅ [str "call 555"]) in
  let next := run_chat_start env Sample.args (files (term_handler env Sample.args s)) [] in
  previous s = conv
  /\ state next = Running AtInput /\ previous next = conv /\ edited next = false.
Proof.
  intros conv env s next.
  assert (Hs : previous s = conv) by (vm_compute; reflexivity).
  split; [exact Hs|]. rewrite <- Hs.
  apply (saved_conversation_is_loaded env Sample.args s []).
  - reflexivity.
  - reflexivity.
  - rewrite Hs. vm_compute. reflexivity.
Defined.

(** ** The shape of the conversation *)

Section growth.
Variables (env : Env) (args : Args) (start_ : Messages).

Lemma after_extends {A} (s : session) (m : M A) (next : A -> point) :
  extends start_ s ->
  (forall a tr, m (trace s) = (Ok a, tr) ->
     match next a with
     | Answered _ g _ | Flagged _ g _ | UserStored g _ => role g = str "assistant"
     | _ => True
     end) ->
  extends start_ (after s m next).
Proof.
  intros (Hgrow & _) Hnext. unfold after.
  destruct (m (trace s)) as [[a|e] tr] eqn:Hm; (split; [exact Hgrow|]).
  - unfold holds_reply. cbn [state]. by apply (Hnext a tr).
  - done.
Qed.

Lemma step_extends (s : session) (a : action) :
  extends start_ s -> extends start_ (step env args s a).
Proof.
  intros Hext. unfold step.
  destruct (state s) as [p| |] eqn:Hst; [|done..].
  destruct a; [|by destruct Hext as (Hgrow & _); unfold term_handler;
                   destruct (edited s); split].
  destruct p as [|c|c g r|c g r|g r]; cbn [main_step].
  - unfold read_line. destruct (stdin s) as [|line rest]; [done|].
    assert (Hext' : extends start_
      {| state := state s; edited := edited s; previous := previous s;
         stdin := rest; files := files s; writes := writes s; trace := trace s |}).
    { destruct Hext as (Hgrow & _). split; [exact Hgrow|].
      unfold holds_reply. cbn [state]. by rewrite Hst. }
    destruct (blank line); [done|]. by apply after_extends.
  - apply after_extends; [done|]. intros [[m annotated] raw] tr Hsend.
    apply send_chatgpt_message_inv in Hsend
      as (cm & rr & p & rres & rep & _ & _ & _ & _ & _ & _ & -> & _).
    done.
  - destruct Hext as (Hgrow & Hreply). split; [exact Hgrow|].
    unfold holds_reply in *. by rewrite Hst in Hreply.
  - destruct Hext as ((added & Hprev & Hall) & Hreply). split.
    + exists (added ++ [({| role := str "user"; content := c |}, c)]).
      cbn [previous]. rewrite Hprev, <- app_assoc. split; [done|].
      apply Forall_app. split; [done|]. constructor; [by left | constructor].
    + unfold holds_reply in *. by rewrite Hst in Hreply.
  - destruct Hext as ((added & Hprev & Hall) & Hreply). split; [|done].
    exists (added ++ [(g, r)]).
    cbn [previous]. rewrite Hprev, <- app_assoc. split; [done|].
    apply Forall_app. split; [done|]. constructor; [|constructor].
    right. unfold holds_reply in Hreply. by rewrite Hst in Hreply.
Qed.

End growth.

(** X15: the conversation only grows, and only by the two kinds of entry
    the loop appends.  On every schedule the conversation in memory is
    the one the session started with followed by entries that are either
    a user entry whose annotated text is its content or an assistant
    entry. *)
Theorem conversation_only_grows (env : Env) (args : Args) (fs : gmap string text)
    (lines : list text) (schedule : list action) :
  exists added,
    previous (run_chat env args fs lines schedule)
    = previous (run_chat_start env args fs lines) ++ added
    /\ Forall turn_entry added.
Proof.
  unfold run_chat.
  assert (Hstart : extends (previous (run_chat_start env args fs lines))
                     (run_chat_start env args fs lines)).
  { split.
    - exists []. by rewrite app_nil_r.
    - unfold holds_reply, run_chat_start.
      by destruct (if new_conversation args then _ else _). }
  revert Hstart. generalize (previous (run_chat_start env args fs lines)) as start_.
  generalize (run_chat_start env args fs lines) as s.
  induction schedule as [|a schedule IH]; intros s start_ Hext.
  - by destruct Hext.
  - cbn [fold_left]. by apply IH, step_extends.
Qed.

(** ** Start-up and the bind address *)

(** X16: the module starts exactly when the completion key is set and
    not empty, the platform token is set, and the client constructors of
    lines 40-42 accept the settings read, the platform domain falling
    back to its default.  A missing or empty completion key raises the
    error naming it, also when the token is missing, and a missing token
    raises the error naming it; in both cases no client is constructed,
    whatever the constructors would do. *)
Theorem startup_requires_credentials {Clients : Type}
    (connect : Settings -> res Clients) (environ : gmap string text) :
  (forall settings clients,
     startup connect environ = Ok (settings, clients) <->
     exists key token,
       environ !! "OPENAI_API_KEY"%string = Some key /\ key <> []
       /\ environ !! "PANGEA_TOKEN"%string = Some token
       /\ settings = {| api_key := key;
                        pangea_domain :=
                          match environ !! "PANGEA_DOMAIN"%string with
                          | Some d => d
                          | None => str "aws.us.pangea.cloud"
                          end;
                        pangea_token := token |}
       /\ connect settings = Ok clients)
  /\ (environ !! "OPENAI_API_KEY"%string = None
      \/ environ !! "OPENAI_API_KEY"%string = Some [] ->
      startup connect environ
      = Raise (ValueError (str "'OPENAI_API_KEY' is a required env var")))
  /\ (forall key, environ !! "OPENAI_API_KEY"%string = Some key -> key <> [] ->
      environ !! "PANGEA_TOKEN"%string = None ->
      startup connect environ
      = Raise (ValueError (str "'PANGEA_TOKEN' is a required env var"))).
Proof.
  unfold startup, environment_checks. repeat split.
  - intros H.
    destruct (environ !! "OPENAI_API_KEY"%string) as [[|c key]|]; try discriminate.
    destruct (environ !! "PANGEA_TOKEN"%string) as [token|]; [|discriminate].
    destruct (connect _) as [clients'|e] eqn:Hc; [|discriminate].
    injection H as <- <-. by exists (c :: key), token.
  - intros (key & token & Hk & Hkey & Ht & -> & Hc). unfold text in *.
    rewrite Hk, Ht. destruct key; [done|]. by rewrite Hc.
  - intros [H | H]; unfold text in *; by rewrite H.
  - intros key Hk Hkey Ht. unfold text in *. rewrite Hk, Ht. by destruct key.
Qed.

Lemma startup_requires_credentials_witness :
  let environ : gmap string text :=
    {[ "OPENAI_API_KEY"%string := str "sk-1"; "PANGEA_TOKEN"%string := str "pts_1" ]} in
  startup strict_connect environ
  = Ok ({| api_key := str "sk-1"; pangea_domain := str "aws.us.pangea.cloud";
           pangea_token := str "pts_1" |}, tt)
  /\ startup strict_connect (delete "OPENAI_API_KEY"%string environ)
     = Raise (ValueError (str "'OPENAI_API_KEY' is a required env var"))
  /\ startup strict_connect (delete "PANGEA_TOKEN"%string environ)
     = Raise (ValueError (str "'PANGEA_TOKEN' is a required env var")).
Proof.
  intros environ. split; [|split].
  - destruct (startup_requires_credentials strict_connect environ) as (Hok & _).
    apply Hok. exists (str "sk-1"), (str "pts_1"). repeat split; by vm_compute.
  - destruct (startup_requires_credentials strict_connect
                (delete "OPENAI_API_KEY"%string environ)) as (_ & Hkey & _).
    apply Hkey. left. by vm_compute.
  - destruct (startup_requires_credentials strict_connect
                (delete "PANGEA_TOKEN"%string environ)) as (_ & _ & Htoken).
    apply (Htoken (str "sk-1")); by vm_compute.
Defined.

(** X17: [run_flask] refuses a bind address that starts with [https://]
    and otherwise serves over plain HTTP: the address it uses starts with
    [http://], is the given one or the given one behind [http://], and is
    left as it is when given again. *)
Theorem bind_address_is_plain_http (bind : text) :
  (startswith bind (str "https://") = true ->
   bind_address bind = Raise (ValueError (str "pangea-gpt.py does not support https.")))
  /\ (forall a, bind_address bind = Ok a ->
        startswith bind (str "https://") = false
        /\ startswith a (str "http://") = true
        /\ (a = bind \/ a = str "http://" ++ bind)
        /\ bind_address a = Ok a).
Proof.
  unfold bind_address. split; [by intros ->|].
  intros a H.
  destruct (startswith bind (str "https://")) eqn:Hs; [discriminate|].
  assert (Hplain : forall t, startswith (str "http://" ++ t) (str "https://") = false)
    by done.
  destruct (startswith bind (str "http://")) eqn:Hp;
    [assert (a = bind) as -> by congruence
    |assert (a = str "http://" ++ bind) as -> by congruence].
  - rewrite Hs, Hp. split; [done|]. split; [done|]. split; [by left | done].
  - rewrite Hplain. split; [done|]. split; [done|]. split; [by right | done].
Qed.

Lemma bind_address_is_plain_http_witness :
  bind_address (str "127.0.0.1:8000") = Ok (str "http://127.0.0.1:8000")
  /\ bind_address (str "http://127.0.0.1:8000") = Ok (str "http://127.0.0.1:8000")
  /\ bind_address (str "https://127.0.0.1:8000")
     = Raise (ValueError (str "pangea-gpt.py does not support https.")).
Proof.
  destruct (bind_address_is_plain_http (str "127.0.0.1:8000")) as (_ & Hplain).
  destruct (Hplain (str "http://127.0.0.1:8000") eq_refl) as (_ & _ & _ & Hagain).
  destruct (bind_address_is_plain_http (str "https://127.0.0.1:8000")) as (Hsecure & _).
  split; [reflexivity|]. split; [exact Hagain | by apply Hsecure].
Defined.

(** ** The replay of a conversation *)

(** X18: [print_messages] shows the entries whose role is [user] or
    [assistant], four printed items each, in order, and passes over every
    other entry: its output over two conversations in a row is the two
    outputs in a row, and it is its output over the shown entries
    alone. *)
Theorem print_messages_shows_known_roles (a b : Messages) :
  print_messages (a ++ b) = print_messages a ++ print_messages b
  /\ print_messages (List.filter shown a) = print_messages a
  /\ length (print_messages a) = (4 * length (List.filter shown a))%nat.
Proof.
  repeat split.
  - induction a as [|[m t] a IH]; [done|].
    cbn [app print_messages]. by rewrite IH, <- app_assoc.
  - induction a as [|[m t] a IH]; [done|].
    cbn [List.filter print_messages]. unfold shown at 1. cbn [fst].
    destruct (str_eq (role m) (str "user")) eqn:Hu.
    + cbn [orb print_messages]. by rewrite Hu, IH.
    + destruct (str_eq (role m) (str "assistant")) eqn:Ha.
      * cbn [orb print_messages]. by rewrite Hu, Ha, IH.
      * by cbn [orb app].
  - induction a as [|[m t] a IH]; [done|].
    cbn [List.filter print_messages]. unfold shown at 1. cbn [fst].
    rewrite length_app, IH.
    destruct (str_eq (role m) (str "user")) eqn:Hu.
    + cbn [orb length print_from_user]. lia.
    + destruct (str_eq (role m) (str "assistant")) eqn:Ha.
      * cbn [orb length print_from_gpt]. lia.
      * cbn [orb length]. lia.
Qed.

(** ** What a session writes *)

(** X19: on every schedule a session of [run_chat] either writes
    nothing, leaving the files as it found them, or has exited after one
    write made with [edited] on: the whole conversation, at the explicit
    path or the fallback one, replacing what was there. *)
Theorem session_writes_at_most_once (env : Env) (args : Args) (fs : gmap string text)
    (lines : list text) (schedule : list action) :
  let s := run_chat env args fs lines schedule in
  (writes s = [] /\ files s = fs)
  \/ ((exists code, state s = Exited code)
      /\ edited s = true
      /\ writes s = [(save_path args, json_dump env (previous s))]
      /\ files s = <[save_path args := json_dump env (previous s)]> fs).
Proof.
  intros s.
  destruct (run_chat_saves_only_when_edited env args fs lines schedule) as (Hsaved & _).
  fold s in Hsaved. unfold saved_once in Hsaved.
  destruct (state s) as [p|code|e] eqn:Hst.
  - by left.
  - destruct Hsaved as [(Hw & Hf & _) | (He & Hw & Hf)]; [by left|].
    right. split; [by exists code | done].
  - by left.
Qed.

(** ** The entries tagged URL, within a report *)

Section url_entries.
Variable env : Env.
Implicit Types (content t : text) (r : RecognizerResult) (tr : list event).

(** As long as no entry starts before offset [n], the text being
    annotated keeps the first [n] characters it started with and does not
    get shorter than [n]. *)
Lemma annotate_prefix_and_length content (rs : list RecognizerResult) t tr t' tr' (n : Z) :
  annotate env content rs t tr = (Ok t', tr') ->
  0 <= n <= len t -> Forall (fun r => n <= start r) rs ->
  take (Z.to_nat n) t' = take (Z.to_nat n) t /\ n <= len t'.
Proof.
  intros Hloop Hn Hall. revert t tr Hloop Hn.
  induction Hall as [|r rs Hr _ IH]; intros t tr Hloop Hn.
  - cbn in Hloop. injection Hloop as <- _. split; [done | lia].
  - cbn [annotate] in Hloop. unfold bind in Hloop.
    destruct (annotate_step env content r t tr) as [[t1|e] tr1] eqn:Hstep; [|done].
    destruct (annotate_step_keeps_prefix env _ _ _ _ _ _ n Hstep Hn Hr) as (Heq & Hlen).
    destruct (IH t1 tr1 Hloop ltac:(lia)) as (Heq' & Hlen').
    split; [by rewrite Heq', Heq | done].
Qed.

(** Where the text being annotated agrees with the content up to the end
    of a span, the characters at the span's offsets are the span's own
    and a splice there replaces the span. *)
Lemma splice_replaces_span content t (R : text) (s e : Z) :
  0 <= s <= e -> e <= len content -> e <= len t ->
  take (Z.to_nat e) t = take (Z.to_nat e) content ->
  slice t s e = slice content s e
  /\ replace_word t R s e
     = take (Z.to_nat s) content ++ R ++ drop (Z.to_nat e) t.
Proof.
  intros Hs He Ht Hagree. split.
  - rewrite !slice_take_drop by done.
    rewrite !take_drop_commute.
    replace (Z.to_nat s + (Z.to_nat e - Z.to_nat s))%nat with (Z.to_nat e) by lia.
    by rewrite Hagree.
  - rewrite replace_word_take_drop by done. f_equal.
    replace (take (Z.to_nat s) t) with (take (Z.to_nat s) (take (Z.to_nat e) t))
      by (rewrite take_take; f_equal; lia).
    rewrite Hagree, take_take. f_equal. lia.
Qed.

End url_entries.

(** C1 (amended): an entry tagged URL is looked up exactly when its
    [redacted] flag is on.  The reputation service is then asked about
    [content[start:end]] less a leading [http://] or [https://]; with
    the flag off the entry changes nothing and no lookup is made; over a
    report that the loop gets through, the lookups are those of the
    flagged URL entries, in order.  When the text annotated so far
    agrees with the content up to the end offset of a looked-up span, as
    it does when every earlier entry starts at or after that offset, the
    characters at the span's offsets are the span's own, and the span is
    replaced by [<MALICIOUS_URL>] if the verdict is [malicious] and left
    as it is otherwise. *)
Theorem url_entries_consulted_when_flagged (env : Env) (content : text) :
  (forall r t tr, field_type r = str "URL" ->
     annotate_step env content r t tr
     = if redacted r
       then (match reputation env (url_of content r) (str "crowdstrike") with
             | Ok verdict =>
                 Ok (if str_eq verdict (str "malicious")
                     then replace_word t (str "<MALICIOUS_URL>") (start r) (end_ r)
                     else t)
             | Raise e => Raise e
             end,
             tr ++ [ReputationCall (url_of content r) (str "crowdstrike")])
       else (Ok t, tr))
  /\ (forall r,
        let u := slice content (start r) (end_ r) in
        (exists rest, u = str "http://" ++ rest /\ url_of content r = rest)
        \/ (exists rest, u = str "https://" ++ rest /\ url_of content r = rest)
        \/ ((forall rest, u <> str "http://" ++ rest)
            /\ (forall rest, u <> str "https://" ++ rest)
            /\ url_of content r = u))
  /\ (forall rs t tr t' tr',
        annotate env content rs t tr = (Ok t', tr') ->
        tr' = tr ++ map (lookup_of content) (List.filter consulted rs))
  /\ (forall r t tr,
        field_type r = str "URL" -> redacted r = true ->
        0 <= start r <= end_ r -> end_ r <= len content -> end_ r <= len t ->
        take (Z.to_nat (end_ r)) t = take (Z.to_nat (end_ r)) content ->
        slice t (start r) (end_ r) = slice content (start r) (end_ r)
        /\ annotate_step env content r t tr
           = (match reputation env (url_of content r) (str "crowdstrike") with
              | Ok verdict =>
                  Ok (if str_eq verdict (str "malicious")
                      then take (Z.to_nat (start r)) content
                           ++ str "<MALICIOUS_URL>"
                           ++ drop (Z.to_nat (end_ r)) t
                      else t)
              | Raise e => Raise e
              end,
              tr ++ [ReputationCall (url_of content r) (str "crowdstrike")]))
  /\ (forall rs1 r tr t1 tr1,
        annotate env content rs1 content tr = (Ok t1, tr1) ->
        Forall (fun r' => end_ r <= start r') rs1 ->
        field_type r = str "URL" -> redacted r = true ->
        0 <= start r <= end_ r -> end_ r <= len content ->
        slice t1 (start r) (end_ r) = slice content (start r) (end_ r)
        /\ annotate env content (rs1 ++ [r]) content tr
           = (match reputation env (url_of content r) (str "crowdstrike") with
              | Ok verdict =>
                  Ok (if str_eq verdict (str "malicious")
                      then take (Z.to_nat (start r)) content
                           ++ str "<MALICIOUS_URL>"
                           ++ drop (Z.to_nat (end_ r)) t1
                      else t1)
              | Raise e => Raise e
              end,
              tr1 ++ [ReputationCall (url_of content r) (str "crowdstrike")])).
Proof.
  assert (Hspan : forall r t tr,
    field_type r = str "URL" -> redacted r = true ->
    0 <= start r <= end_ r -> end_ r <= len content -> end_ r <= len t ->
    take (Z.to_nat (end_ r)) t = take (Z.to_nat (end_ r)) content ->
    slice t (start r) (end_ r) = slice content (start r) (end_ r)
    /\ annotate_step env content r t tr
       = (match reputation env (url_of content r) (str "crowdstrike") with
          | Ok verdict =>
              Ok (if str_eq verdict (str "malicious")
                  then take (Z.to_nat (start r)) content
                       ++ str "<MALICIOUS_URL>"
                       ++ drop (Z.to_nat (end_ r)) t
                  else t)
          | Raise e => Raise e
          end,
          tr ++ [ReputationCall (url_of content r) (str "crowdstrike")])).
  { intros r t tr Hft Hred Hs He Ht Hagree.
    destruct (splice_replaces_span content t (str "<MALICIOUS_URL>")
                (start r) (end_ r) Hs He Ht Hagree) as (Hown & Hsplice).
    split; [done|]. rewrite annotate_step_consulted by done. by rewrite Hsplice. }
  split; [|split; [|split; [|split]]].
  - intros r t tr Hft. destruct (redacted r) eqn:Hred.
    + by apply annotate_step_consulted.
    + by apply annotate_step_not_redacted.
  - apply url_of_strips.
  - apply annotate_trace.
  - exact Hspan.
  - intros rs1 r tr t1 tr1 Hloop Hall Hft Hred Hs He.
    destruct (annotate_prefix_and_length env content rs1 content tr t1 tr1 (end_ r)
                Hloop ltac:(lia) Hall) as (Hagree & Hlen).
    destruct (Hspan r t1 tr1 Hft Hred Hs He Hlen Hagree) as (Hown & Hstep).
    split; [done|].
    rewrite annotate_app, Hloop. cbn [annotate]. unfold bind. rewrite Hstep.
    by destruct (reputation env _ _).
Qed.

Lemma url_entries_consulted_when_flagged_witness :
  let env := Sample.env (str "ok") [] (str "malicious") in
  let content := str "see http://a.io and http://t.co now" in
  let later := Sample.span (str "URL") 20 31 true in
  let r := Sample.span (str "URL") 4 15 true in
  annotate env content ([later] ++ [r]) content []
  = (Ok (str "see <MALICIOUS_URL> and <MALICIOUS_URL> now"),
     [ ReputationCall (str "t.co") (str "crowdstrike");
       ReputationCall (str "a.io") (str "crowdstrike") ]).
Proof.
  intros env content later r.
  destruct (url_entries_consulted_when_flagged env content) as (_ & _ & _ & _ & Hin).
  destruct (Hin [later] r [] (str "see http://a.io and <MALICIOUS_URL> now")
              [ReputationCall (str "t.co") (str "crowdstrike")]) as (_ & Hrun).
  - vm_compute. reflexivity.
  - constructor; [vm_compute; discriminate | constructor].
  - reflexivity.
  - reflexivity.
  - vm_compute. split; discriminate.
  - vm_compute. discriminate.
  - rewrite Hrun. vm_compute. reflexivity.
Defined.
